(** * api_stresstest.py: the batch dispatcher and the statistics report

    A shallow embedding of [class APIStressTest] (src/api_stresstest.py):
    [__init__], [make_request], [run] and [show_results].

    Modelling conventions.
    - Python [int]s are [Z].  Elapsed times are Python [float]s read from
      [time.perf_counter()]; they are idealised as exact rationals [Q], so
      rounding is not modelled.  Two values that are equal as numbers may be
      different terms of [Q]; numeric facts are therefore stated with [==]
      and [<=] of [Q], structural facts (which list, which element) with [=].
    - [self] is a record threaded through a monad that also collects what
      [print] writes and carries a raised exception.
    - The HTTP library and the clock are the environment: for every request
      id the environment fixes the two clock readings and whether the call
      returned a status or raised.
    - [asyncio.gather] is a step relation: the tasks of the awaited batch are
      started and completed in an order chosen by the event loop.
    - The one place where a float meets an integer index, [int(len * 0.95)],
      is also written out in IEEE binary64 and compared with the rational
      version on every length up to 10000. *)

From Stdlib Require Import ZArith QArith List String Ascii Bool Lia Lqa.
From Stdlib Require Import Permutation Sorting.Sorted.
From Stdlib Require Import Floats.SpecFloat.
Import ListNotations.

Local Open Scope Z_scope.

(** ** Exceptions and printed lines *)

Inductive exn : Type :=
| ZeroDivisionError
| IndexError
| ValueError
| StatisticsError
| ClientError (msg : string).   (* anything aiohttp / asyncio raises: timeouts, refused connections, ... *)

(** A value that reaches an f-string: a float or a [str]. *)
Inductive pyval : Type :=
| VFloat (q : Q)
| VStr (s : string).

(** One constructor per [print] call of the source, with the values that are
    interpolated into it (before their [:.2f] / [:.3f] rendering). *)
Inductive line : Type :=
| LUnsupported (m : string)                         (* line 43 *)
| LRequest (request_id status : Z) (elapsed : Q)    (* line 55 *)
| LFailed (request_id : Z) (elapsed : Q) (e : exn)  (* line 61 *)
| LStarting                                         (* line 64 *)
| LUrl (u : string)
| LMethod (m : string)
| LRequests (n : Z)
| LConcurrency (c : Z)
| LTimeout (t : Z)
| LRule                                             (* line 70 *)
| LNoSuccessful                                     (* line 87 *)
| LHeader                                           (* lines 90-92 *)
| LTotalRequests (n : Z)
| LSuccessful (n : Z)
| LFailedCount (n : Z)
| LSuccessRate (r : Q)
| LResponseTime                                     (* line 115 *)
| LAvg (q : Q)
| LMin (q : Q)
| LMax (q : Q)
| LMedian (q : Q)
| LP95 (q : Q)
| LP99 (q : Q)
| LRequestsPerSecond (q : Q).

(** ** The object *)

Record APIStressTest : Type := mkAPIStressTest {
  url : string;
  method : string;
  data : option string;
  headers : list (string * string);
  num_requests : Z;
  concurrency : Z;
  timeout : Z;
  results : list Q;
  failed_requests : Z;
  successful_requests : Z
}.

(** [str.upper()] on ASCII text. *)
Definition upper_ascii (c : ascii) : ascii :=
  let n := nat_of_ascii c in
  if ((97 <=? n) && (n <=? 122))%nat then ascii_of_nat (n - 32) else c.

Fixpoint upper (s : string) : string :=
  match s with
  | EmptyString => EmptyString
  | String c s' => String (upper_ascii c) (upper s')
  end.

(** [__init__] (lines 10-21). *)
Definition init (url method : string) (data : option string)
    (headers : option (list (string * string)))
    (num_requests concurrency timeout : Z) : APIStressTest :=
  {| url := url;
     method := upper method;
     data := data;
     headers := match headers with Some h => h | None => [] end;
     num_requests := num_requests;
     concurrency := concurrency;
     timeout := timeout;
     results := [];
     failed_requests := 0;
     successful_requests := 0 |}.

Definition append_result (elapsed : Q) (self : APIStressTest) : APIStressTest :=
  {| url := url self; method := method self; data := data self;
     headers := headers self; num_requests := num_requests self;
     concurrency := concurrency self; timeout := timeout self;
     results := results self ++ [elapsed];
     failed_requests := failed_requests self;
     successful_requests := successful_requests self |}.

Definition incr_successful (self : APIStressTest) : APIStressTest :=
  {| url := url self; method := method self; data := data self;
     headers := headers self; num_requests := num_requests self;
     concurrency := concurrency self; timeout := timeout self;
     results := results self;
     failed_requests := failed_requests self;
     successful_requests := successful_requests self + 1 |}.

Definition incr_failed (self : APIStressTest) : APIStressTest :=
  {| url := url self; method := method self; data := data self;
     headers := headers self; num_requests := num_requests self;
     concurrency := concurrency self; timeout := timeout self;
     results := results self;
     failed_requests := failed_requests self + 1;
     successful_requests := successful_requests self |}.

(** ** The monad of a method body

    A computation reads and writes [self], appends to the console and either
    returns a value or raises. *)

Inductive outcome (A : Type) : Type :=
| Ret (a : A)
| Raise (e : exn).
Arguments Ret {A} a.
Arguments Raise {A} e.

Record run_of (A : Type) : Type := mkRun {
  self_after : APIStressTest;
  printed : list line;
  result : outcome A
}.
Arguments mkRun {A} _ _ _.
Arguments self_after {A} _.
Arguments printed {A} _.
Arguments result {A} _.

Definition M (A : Type) : Type := APIStressTest -> run_of A.

Definition ret {A} (a : A) : M A := fun self => mkRun self [] (Ret a).

Definition raise {A} (e : exn) : M A := fun self => mkRun self [] (Raise e).

Definition bind {A B} (m : M A) (k : A -> M B) : M B :=
  fun self =>
    let r := m self in
    match result r with
    | Ret a =>
        let r' := k a (self_after r) in
        mkRun (self_after r') (printed r ++ printed r') (result r')
    | Raise e => mkRun (self_after r) (printed r) (Raise e)
    end.

(** [try: m except <class> as e: h e]; [caught] tells which exceptions the
    [except] clause names. *)
Definition try_except {A} (m : M A) (caught : exn -> bool) (h : exn -> M A) : M A :=
  fun self =>
    let r := m self in
    match result r with
    | Ret a => r
    | Raise e =>
        if caught e then
          let r' := h e (self_after r) in
          mkRun (self_after r') (printed r ++ printed r') (result r')
        else r
    end.

(** [except Exception]: every exception of the model. *)
Definition Exception (e : exn) : bool := true.

(** [except IndexError]. *)
Definition is_IndexError (e : exn) : bool :=
  match e with IndexError => true | _ => false end.

Definition get_self : M APIStressTest := fun self => mkRun self [] (Ret self).

Definition update (f : APIStressTest -> APIStressTest) : M unit :=
  fun self => mkRun (f self) [] (Ret tt).

Definition print (l : line) : M unit := fun self => mkRun self [l] (Ret tt).

Definition lift {A} (o : outcome A) : M A := fun self => mkRun self [] o.

Declare Scope py_scope.
Delimit Scope py_scope with py.
Notation "x <- m ;; k" := (bind m (fun x => k))
  (at level 61, m at next level, right associativity) : py_scope.
Notation "m ;; k" := (bind m (fun _ => k))
  (at level 61, right associativity) : py_scope.
Local Open Scope py_scope.

(** ** Python built-ins and the [statistics] module *)

Definition Qltb (a b : Q) : bool := negb (Qle_bool b a).

(** [sum(l)]: starts from 0 and adds from the left. *)
Definition py_sum (l : list Q) : Q := fold_left Qplus l 0%Q.

(** [len(l)]. *)
Definition len {A} (l : list A) : Z := Z.of_nat (List.length l).

(** [min(l)]: the first smallest element; [ValueError] on an empty list. *)
Definition py_min (l : list Q) : outcome Q :=
  match l with
  | [] => Raise ValueError
  | x :: xs => Ret (fold_left (fun m y => if Qltb y m then y else m) xs x)
  end.

(** [max(l)]: the first largest element; [ValueError] on an empty list. *)
Definition py_max (l : list Q) : outcome Q :=
  match l with
  | [] => Raise ValueError
  | x :: xs => Ret (fold_left (fun m y => if Qltb m y then y else m) xs x)
  end.

(** [sorted(l)]: a new list, ascending, stable; the argument is not touched. *)
Fixpoint insert (x : Q) (l : list Q) : list Q :=
  match l with
  | [] => [x]
  | y :: ys => if Qle_bool x y then x :: y :: ys else y :: insert x ys
  end.

Fixpoint sorted (l : list Q) : list Q :=
  match l with
  | [] => []
  | x :: xs => insert x (sorted xs)
  end.

(** [l[k]] for an [int] k: negative indices count from the end, anything
    outside [-len, len) raises [IndexError]. *)
Definition getitem (l : list Q) (k : Z) : outcome Q :=
  let k' := if k <? 0 then len l + k else k in
  if (k' <? 0) || (len l <=? k') then Raise IndexError
  else match nth_error l (Z.to_nat k') with
       | Some x => Ret x
       | None => Raise IndexError
       end.

(** [int(x)]: truncation toward zero. *)
Definition int (x : Q) : Z := Z.quot (Qnum x) (Z.pos (Qden x)).

(** [a / b] on numbers: [ZeroDivisionError] when the divisor is zero. *)
Definition truediv (a b : Q) : outcome Q :=
  if Qeq_bool b 0 then Raise ZeroDivisionError else Ret (a / b)%Q.

(** [statistics.mean(l)]. *)
Definition mean (l : list Q) : outcome Q :=
  match l with
  | [] => Raise StatisticsError
  | _ => Ret (py_sum l / inject_Z (len l))%Q
  end.

(** [statistics.median(l)]: sorts a copy; the middle element, or the mean of
    the two middle elements when the length is even. *)
Definition median (l : list Q) : outcome Q :=
  let data := sorted l in
  let n := len data in
  if n =? 0 then Raise StatisticsError
  else if n mod 2 =? 1 then getitem data (n / 2)
  else
    let i := n / 2 in
    match getitem data (i - 1), getitem data i with
    | Ret a, Ret b => Ret ((a + b) / 2)%Q
    | Raise e, _ => Raise e
    | _, Raise e => Raise e
    end.

(** What [f"{v:.3f}"] does with the value: a [str] has no format code 'f'. *)
Definition format_f (v : pyval) : outcome Q :=
  match v with
  | VFloat q => Ret q
  | VStr _ => Raise ValueError
  end.

(** [not l] for a list. *)
Definition is_empty {A} (l : list A) : bool :=
  match l with [] => true | _ => false end.

(** ** [show_results] (lines 85-122) *)

(** Lines 105-110: both percentiles, or both "N/A" on an [IndexError]. *)
Definition percentiles (res : list Q) : M (pyval * pyval) :=
  try_except
    (p95 <- lift (getitem (sorted res) (int (inject_Z (len res) * (95 # 100)))) ;;
     p99 <- lift (getitem (sorted res) (int (inject_Z (len res) * (99 # 100)))) ;;
     ret (VFloat p95, VFloat p99))
    is_IndexError
    (fun _ => ret (VStr "N/A", VStr "N/A")).

Definition show_results : M unit :=
  self <- get_self ;;
  if is_empty (results self) then
    print LNoSuccessful
  else
    print LHeader ;;
    print (LTotalRequests (num_requests self)) ;;
    print (LSuccessful (successful_requests self)) ;;
    print (LFailedCount (failed_requests self)) ;;
    ratio <- lift (truediv (inject_Z (successful_requests self))
                           (inject_Z (num_requests self))) ;;
    print (LSuccessRate (ratio * 100)) ;;
    let total_time := py_sum (results self) in
    avg_time <- lift (mean (results self)) ;;
    min_time <- lift (py_min (results self)) ;;
    max_time <- lift (py_max (results self)) ;;
    median_time <- lift (median (results self)) ;;
    pp <- percentiles (results self) ;;
    requests_per_second <- lift (truediv (inject_Z (successful_requests self))
                                         total_time) ;;
    print LResponseTime ;;
    print (LAvg avg_time) ;;
    print (LMin min_time) ;;
    print (LMax max_time) ;;
    print (LMedian median_time) ;;
    p95 <- lift (format_f (fst pp)) ;;
    print (LP95 p95) ;;
    p99 <- lift (format_f (snd pp)) ;;
    print (LP99 p99) ;;
    print (LRequestsPerSecond requests_per_second).

(** ** The environment of a request *)

Inductive answer : Type :=
| Status (code : Z)      (* the call returned and the body was read *)
| Raises (e : exn).      (* the call, or reading the body, raised *)

(** What the world does with one request: the [perf_counter()] reading when
    the coroutine begins, the reading when the call returns or raises, and
    which of the two happens. *)
Record reply : Type := mkReply {
  start_time : Q;
  end_time : Q;
  answer_of : answer
}.

Definition network : Type := Z -> reply.

Definition answered (net : network) (i : Z) : bool :=
  match answer_of (net i) with Status _ => true | Raises _ => false end.

Definition elapsed_of (net : network) (i : Z) : Q :=
  (end_time (net i) - start_time (net i))%Q.

(** [async with session.<verb>(...) as response: await response.text();
    status = response.status]. *)
Definition session_request (r : reply) : M Z :=
  match answer_of r with
  | Status code => ret code
  | Raises e => raise e
  end.

(** ** [make_request] (lines 23-61) *)

Definition make_request (net : network) (request_id : Z) : M unit :=
  let r := net request_id in
  let start_time := start_time r in
  try_except
    (self <- get_self ;;
     sent <- (if (method self =? "GET")%string then
                status <- session_request r ;; ret (Some status)
              else if (method self =? "POST")%string then
                status <- session_request r ;; ret (Some status)
              else if (method self =? "PUT")%string then
                status <- session_request r ;; ret (Some status)
              else if (method self =? "DELETE")%string then
                status <- session_request r ;; ret (Some status)
              else
                print (LUnsupported (method self)) ;; ret None) ;;
     match sent with
     | None => ret tt                                   (* line 44: return *)
     | Some status =>
         let end_time := end_time r in
         let elapsed := (end_time - start_time)%Q in
         update (append_result elapsed) ;;
         (if (200 <=? status) && (status <? 300)
          then update incr_successful
          else update incr_failed) ;;
         print (LRequest request_id status elapsed)
     end)
    Exception
    (fun e =>
       let end_time := end_time r in
       let elapsed := (end_time - start_time)%Q in
       update incr_failed ;;
       print (LFailed request_id elapsed e)).

Definition supported (m : string) : bool :=
  ((m =? "GET") || (m =? "POST") || (m =? "PUT") || (m =? "DELETE"))%string.

(** ** [range] and slices *)

Fixpoint range_from (fuel : nat) (i stop step : Z) : list Z :=
  match fuel with
  | O => []
  | S fuel' =>
      if ((0 <? step) && (i <? stop)) || ((step <? 0) && (stop <? i))
      then i :: range_from fuel' (i + step) stop step
      else []
  end.

(** [range(start, stop, step)]; a zero step is a [ValueError]. *)
Definition py_range (start stop step : Z) : outcome (list Z) :=
  if step =? 0 then Raise ValueError
  else Ret (range_from (Z.to_nat (Z.abs (stop - start))) start stop step).

(** [range(start, stop)]. *)
Definition py_range2 (start stop : Z) : list Z :=
  range_from (Z.to_nat (Z.abs (stop - start))) start stop 1.

(** A slice bound is clipped into [0, len]; a negative one counts from the end. *)
Definition clip (n k : Z) : Z :=
  if k <? 0 then Z.max 0 (n + k) else Z.min n k.

(** [l[a:b]]. *)
Definition slice {A} (l : list A) (a b : Z) : list A :=
  let lo := clip (len l) a in
  let hi := clip (len l) b in
  firstn (Z.to_nat (hi - lo)) (skipn (Z.to_nat lo) l).

(** Line 80: the batch that starts at position i, [tasks[i:i+c]]. *)
Definition batch_at (tasks : list Z) (c : Z) (i : Z) : list Z :=
  slice tasks i (i + c).

(** Lines 79-80: the batches the [for] loop walks through. *)
Definition batches (tasks : list Z) (c : Z) : outcome (list (list Z)) :=
  match py_range 0 (len tasks) c with
  | Raise e => Raise e
  | Ret starts => Ret (map (batch_at tasks c) starts)
  end.

(** ** The event loop under [await asyncio.gather] of a batch (lines 79-81) *)

Inductive event : Type :=
| Start (i : Z)      (* the coroutine of request i runs its first line *)
| Finish (i : Z).    (* request i has recorded its outcome and returned *)

Record loop_state : Type := mkLoop {
  obj : APIStressTest;        (* self *)
  console : list line;        (* printed so far by the requests *)
  queue : list (list Z);      (* batches the for loop has not reached *)
  created : list Z;           (* tasks of the awaited batch that have not begun *)
  inflight : list Z;          (* tasks that have begun and not yet returned *)
  history : list event        (* ghost: what has happened, oldest first *)
}.

Fixpoint remove_nth {A} (k : nat) (l : list A) : list A :=
  match k, l with
  | _, [] => []
  | O, _ :: xs => xs
  | S k', x :: xs => x :: remove_nth k' xs
  end.

Definition boot (self : APIStressTest) (bs : list (list Z)) : loop_state :=
  mkLoop self [] bs [] [] [].

Definition gather_next (b : list Z) (q : list (list Z)) (s : loop_state) : loop_state :=
  mkLoop (obj s) (console s) q b (inflight s) (history s).

Definition start_next (i : Z) (rest : list Z) (s : loop_state) : loop_state :=
  mkLoop (obj s) (console s) (queue s) rest (inflight s ++ [i])
         (history s ++ [Start i]).

Definition finish_at (net : network) (k : nat) (i : Z) (s : loop_state) : loop_state :=
  let r := make_request net i (obj s) in
  mkLoop (self_after r) (console s ++ printed r) (queue s) (created s)
         (remove_nth k (inflight s)) (history s ++ [Finish i]).

Inductive step (net : network) : loop_state -> loop_state -> Prop :=
| step_gather s b q :
    created s = [] -> inflight s = [] -> queue s = b :: q ->
    step net s (gather_next b q s)
| step_start s i rest :
    created s = i :: rest ->
    step net s (start_next i rest s)
| step_finish s k i :
    nth_error (inflight s) k = Some i ->
    step net s (finish_at net k i s).

Inductive steps (net : network) (s : loop_state) : loop_state -> Prop :=
| steps_refl : steps net s s
| steps_more t u : steps net s t -> step net t u -> steps net s u.

Definition final (s : loop_state) : Prop :=
  queue s = [] /\ created s = [] /\ inflight s = [].

Definition finished (h : list event) : list Z :=
  flat_map (fun e => match e with Finish i => [i] | Start _ => [] end) h.

(** ** One schedule that can be executed

    [pick] is the event loop's choice: given the tasks in flight, the position
    of the one that completes next.  Every task of a batch is started, in
    argument order, before the first one completes. *)

Fixpoint start_all (fuel : nat) (s : loop_state) : loop_state :=
  match fuel with
  | O => s
  | S fuel' =>
      match created s with
      | [] => s
      | i :: rest => start_all fuel' (start_next i rest s)
      end
  end.

Fixpoint finish_all (net : network) (pick : list Z -> nat) (fuel : nat)
    (s : loop_state) : loop_state :=
  match fuel with
  | O => s
  | S fuel' =>
      let k := (pick (inflight s) mod List.length (inflight s))%nat in
      match nth_error (inflight s) k with
      | None => s
      | Some i => finish_all net pick fuel' (finish_at net k i s)
      end
  end.

Fixpoint drive (net : network) (pick : list Z -> nat) (bs : list (list Z))
    (s : loop_state) : loop_state :=
  match bs with
  | [] => s
  | b :: q =>
      let s1 := gather_next b q s in
      let s2 := start_all (List.length b) s1 in
      let s3 := finish_all net pick (List.length b) s2 in
      drive net pick q s3
  end.

(** ** [run] (lines 63-83) *)

Definition banner (self : APIStressTest) : list line :=
  [LStarting; LUrl (url self); LMethod (method self);
   LRequests (num_requests self); LConcurrency (concurrency self);
   LTimeout (timeout self); LRule].

Fixpoint print_all (ls : list line) : M unit :=
  match ls with
  | [] => ret tt
  | l :: ls' => print l ;; print_all ls'
  end.

Definition event_loop (net : network) (pick : list Z -> nat)
    (bs : list (list Z)) : M unit :=
  fun self =>
    let s := drive net pick bs (boot self bs) in
    mkRun (obj s) (console s) (Ret tt).

Definition run (net : network) (pick : list Z -> nat) : M unit :=
  self <- get_self ;;
  print_all (banner self) ;;
  let tasks := py_range2 1 (num_requests self + 1) in
  bs <- lift (batches tasks (concurrency self)) ;;
  event_loop net pick bs ;;
  show_results.

(** Every way [run] can go, whatever the event loop chooses. *)
Definition runs (net : network) (self : APIStressTest) (r : run_of unit) : Prop :=
  match batches (py_range2 1 (num_requests self + 1)) (concurrency self) with
  | Raise e => r = mkRun self (banner self) (Raise e)
  | Ret bs =>
      exists s, steps net (boot self bs) s /\ final s /\
        r = mkRun (self_after (show_results (obj s)))
                  (banner self ++ console s ++ printed (show_results (obj s)))
                  (result (show_results (obj s)))
  end.

(** The positions [show_results] reads the percentiles from. *)
Definition p95_index (l : list Q) : Z := int (inject_Z (len l) * (95 # 100)).
Definition p99_index (l : list Q) : Z := int (inject_Z (len l) * (99 # 100)).

(** The full report. *)
Definition report (self : APIStressTest) (avg mn mx md : Q) : list line :=
  [LHeader; LTotalRequests (num_requests self);
   LSuccessful (successful_requests self); LFailedCount (failed_requests self);
   LSuccessRate (inject_Z (successful_requests self)
                 / inject_Z (num_requests self) * 100);
   LResponseTime; LAvg avg; LMin mn; LMax mx; LMedian md;
   LP95 (nth (Z.to_nat (p95_index (results self))) (sorted (results self)) 0%Q);
   LP99 (nth (Z.to_nat (p99_index (results self))) (sorted (results self)) 0%Q);
   LRequestsPerSecond (inject_Z (successful_requests self)
                       / py_sum (results self))].

(** Whether request i counts as successful: answered with a 2xx status. *)
Definition succeeded (net : network) (i : Z) : bool :=
  match answer_of (net i) with
  | Status code => (200 <=? code) && (code <? 300)
  | Raises _ => false
  end.

(** ** The percentile index in IEEE binary64

    [int(len(self.results) * 0.95)] as CPython evaluates it: the length is
    converted to a double, the literal is the double nearest to 95/100, the
    product is rounded to nearest-even and [int] truncates. *)

Definition b64_of_Z (n : Z) : spec_float := binary_normalize 53 1024 n 0 false.

Definition b64_mul : spec_float -> spec_float -> spec_float := SFmul 53 1024.

Definition b64_div : spec_float -> spec_float -> spec_float := SFdiv 53 1024.

(** The double nearest to num/100: what the literals 0.95 and 0.99 denote. *)
Definition b64_hundredths (num : Z) : spec_float :=
  b64_div (b64_of_Z num) (b64_of_Z 100).

(** [int(x)] on a double. *)
Definition b64_int (x : spec_float) : Z :=
  match x with
  | S754_finite s m e =>
      let v := if 0 <=? e then Z.pos m * 2 ^ e else Z.pos m / 2 ^ (- e) in
      if s then - v else v
  | _ => 0
  end.

Definition b64_index (n num : Z) : Z :=
  b64_int (b64_mul (b64_of_Z n) (b64_hundredths num)).

Definition b64_agrees (k : nat) : bool :=
  let n := Z.of_nat k in
  (b64_index n 95 =? int (inject_Z n * (95 # 100))) &&
  (b64_index n 99 =? int (inject_Z n * (99 # 100))).

(** ** Invariants of the event loop *)

(** The three accumulators are a function of which requests have finished,
    in the order in which they finished. *)
Definition tally (net : network) (self0 : APIStressTest) (s : loop_state) : Prop :=
  let F := finished (history s) in
  let ok := supported (method self0) in
  method (obj s) = method self0 /\
  num_requests (obj s) = num_requests self0 /\
  concurrency (obj s) = concurrency self0 /\
  results (obj s) =
    results self0 ++ map (elapsed_of net) (filter (fun i => ok && answered net i) F) /\
  successful_requests (obj s) =
    successful_requests self0 + len (filter (fun i => ok && succeeded net i) F) /\
  failed_requests (obj s) =
    failed_requests self0 + len (filter (fun i => ok && negb (succeeded net i)) F).

(** Every request of every batch is in exactly one place. *)
Definition census (bs : list (list Z)) (s : loop_state) : Prop :=
  Permutation (finished (history s) ++ inflight s ++ created s ++ List.concat (queue s))
              (List.concat bs).

(** In the history [h], wherever a request of a later batch starts, every
    request of every earlier batch has already finished. *)
Definition batch_order (bs : list (list Z)) (h : list event) : Prop :=
  forall j k i i' h1 h2,
    (j < k)%nat -> In i (nth j bs []) -> In i' (nth k bs []) ->
    h = h1 ++ Start i' :: h2 -> In (Finish i) h1.

(** [k] batches have been handed to [gather]; the ones before the last of
    them are done, and whatever is active belongs to that last one. *)
Definition at_batch (bs : list (list Z)) (k : nat) (s : loop_state) : Prop :=
  (k <= List.length bs)%nat /\
  queue s = skipn k bs /\
  (forall j i, (S j < k)%nat -> In i (nth j bs []) -> In (Finish i) (history s)) /\
  (forall i, In i (created s ++ inflight s) ->
             exists k', k = S k' /\ In i (nth k' bs [])) /\
  (forall k' i, k = S k' -> In i (nth k' bs []) ->
             In i (created s) \/ In i (inflight s) \/ In (Finish i) (history s)) /\
  batch_order bs (history s).

(** ** Sample objects and worlds *)

Definition one_instant : APIStressTest :=
  {| url := "http://localhost/"; method := "GET"; data := None; headers := [];
     num_requests := 1; concurrency := 1; timeout := 30;
     results := [0%Q]; failed_requests := 0; successful_requests := 1 |}.

Definition seven_of_ten : APIStressTest :=
  {| url := "http://localhost/"; method := "GET"; data := None; headers := [];
     num_requests := 10; concurrency := 2; timeout := 30;
     results := [3#10; 1#10; 2#10; 5#10; 4#10; 1#10; 1#10];
     failed_requests := 0; successful_requests := 7 |}.

Definition fresh : APIStressTest :=
  init "http://localhost/" "get" None None 5 2 30.

(** The event loop that always completes the oldest task in flight. *)
Definition fifo : list Z -> nat := fun _ => 0%nat.

(** A world in which every call raises after one second. *)
Definition timeouts : network :=
  fun _ => mkReply 0 1 (Raises (ClientError "timeout")).

(** A world that answers 200 between two equal clock readings. *)
Definition instant : network := fun _ => mkReply 0 0 (Status 200).

Definition one_instant_run : run_of unit :=
  run instant fifo (init "http://localhost/" "GET" None None 1 1 30).

Definition one_timeout_run : run_of unit :=
  run timeouts fifo (init "http://localhost/" "GET" None None 1 1 1).

Definition four_timeouts_run : run_of unit :=
  run timeouts fifo (init "http://localhost/" "GET" None None 4 2 1).

(** A world in which request 2 raises, request 4 is answered 500 and the
    others are answered 200. *)
Definition mixed : network := fun i =>
  if i =? 2 then mkReply 0 1 (Raises (ClientError "timeout"))
  else if i =? 4 then mkReply 0 (1 # 2) (Status 500)
  else mkReply 0 (i # 10) (Status 200).

(** ** What the loop prints and starts *)

(** The line [make_request] prints for request i when the method is m
    (lines 43, 55 and 61). *)
Definition log_line (net : network) (m : string) (i : Z) : line :=
  if supported m then
    match answer_of (net i) with
    | Status code => LRequest i code (elapsed_of net i)
    | Raises e => LFailed i (elapsed_of net i) e
    end
  else LUnsupported m.

Definition started (h : list event) : list Z :=
  flat_map (fun e => match e with Start i => [i] | Finish _ => [] end) h.

(** A world in which every call is answered 200 after a quarter of a second. *)
Definition steady : network := fun _ => mkReply 0 (1 # 4) (Status 200).

(** ** The command line: headers and body (lines 134-165) *)

(** [str.isspace] on one ASCII character: tab to carriage return, the four
    separators 28..31, and the space. *)
Definition is_space (c : ascii) : bool :=
  let n := nat_of_ascii c in
  (((9 <=? n) && (n <=? 13)) || ((28 <=? n) && (n <=? 32)))%nat.

Fixpoint lstrip (s : string) : string :=
  match s with
  | EmptyString => EmptyString
  | String c s' => if is_space c then lstrip s' else s
  end.

Fixpoint rstrip (s : string) : string :=
  match s with
  | EmptyString => EmptyString
  | String c s' =>
      match rstrip s' with
      | EmptyString => if is_space c then EmptyString else String c EmptyString
      | r => String c r
      end
  end.

(** [s.strip()]. *)
Definition strip (s : string) : string := rstrip (lstrip s).

Definition starts_with_space (s : string) : bool :=
  match s with
  | EmptyString => false
  | String c _ => is_space c
  end.

Fixpoint ends_with_space (s : string) : bool :=
  match s with
  | EmptyString => false
  | String c EmptyString => is_space c
  | String _ s' => ends_with_space s'
  end.

(** No outer whitespace. *)
Definition trimmed (s : string) : Prop :=
  starts_with_space s = false /\ ends_with_space s = false.

Fixpoint has_colon (s : string) : bool :=
  match s with
  | EmptyString => false
  | String c s' => (c =? ":")%char || has_colon s'
  end.

(** [s.split(':', 1)]: the whole text when it has no colon, otherwise the
    text before the first colon and the text after it. *)
Fixpoint split_colon (s : string) : list string :=
  match s with
  | EmptyString => [EmptyString]
  | String c s' =>
      if (c =? ":")%char then [EmptyString; s']
      else match split_colon s' with
           | [] => [String c EmptyString]
           | k :: rest => String c k :: rest
           end
  end.

(** A [dict] from [str] to [str], in insertion order; assigning to a key that
    is present replaces its value where it stands. *)
Definition dict : Type := list (string * string).

Fixpoint dict_set (k v : string) (d : dict) : dict :=
  match d with
  | [] => [(k, v)]
  | (k', v') :: d' =>
      if (k' =? k)%string then (k, v) :: d' else (k', v') :: dict_set k v d'
  end.

Fixpoint dict_get (k : string) (d : dict) : option string :=
  match d with
  | [] => None
  | (k', v') :: d' => if (k' =? k)%string then Some v' else dict_get k d'
  end.

(** What [main] prints itself (lines 144 and 152). *)
Inductive main_line : Type :=
| LInvalidHeader (header : string)
| LInvalidJSON (text : string).

(** Lines 139-144: each header line is split at its first colon and stored
    stripped; a line without a colon makes the unpacking raise [ValueError],
    which is reported and skipped. *)
Fixpoint process_headers (hs : list string) (headers : dict) : dict * list main_line :=
  match hs with
  | [] => (headers, [])
  | header :: rest =>
      match split_colon header with
      | [key; value] =>
          process_headers rest (dict_set (strip key) (strip value) headers)
      | _ =>
          let (d, out) := process_headers rest headers in
          (d, LInvalidHeader header :: out)
      end
  end.


Section Main.

(** [json.loads]: the decoded value ([None] for the JSON text null), or no
    value at all for a [JSONDecodeError].  The class only hands the value to
    the HTTP library. *)
Variable json_loads : string -> option (option string).



End Main.

(** * Properties *)

(** ** Lists, sorting and the built-ins *)

Lemma len_nonneg {A} (l : list A) : 0 <= len l.
Proof. unfold len. lia. Qed.

Lemma len_cons {A} (x : A) (l : list A) : len (x :: l) = len l + 1.
Proof. unfold len. simpl List.length. lia. Qed.

Lemma len_app {A} (l1 l2 : list A) : len (l1 ++ l2) = len l1 + len l2.
Proof. unfold len. rewrite length_app. lia. Qed.

Lemma insert_perm x l : Permutation (insert x l) (x :: l).
Proof.
  induction l as [|y ys IH]; simpl.
  - apply Permutation_refl.
  - destruct (Qle_bool x y).
    + apply Permutation_refl.
    + apply perm_trans with (y :: x :: ys).
      * apply perm_skip, IH.
      * apply perm_swap.
Qed.

Lemma sorted_perm l : Permutation (sorted l) l.
Proof.
  induction l as [|x xs IH]; simpl.
  - apply perm_nil.
  - apply perm_trans with (x :: sorted xs).
    + apply insert_perm.
    + apply perm_skip, IH.
Qed.

Lemma sorted_length l : List.length (sorted l) = List.length l.
Proof. apply Permutation_length, sorted_perm. Qed.

Lemma len_sorted l : len (sorted l) = len l.
Proof. unfold len. now rewrite sorted_length. Qed.

Lemma sorted_In l x : In x (sorted l) <-> In x l.
Proof.
  split; apply Permutation_in; [apply sorted_perm | apply Permutation_sym, sorted_perm].
Qed.

Lemma Qle_bool_false x y : Qle_bool x y = false -> (y <= x)%Q.
Proof.
  intros H. apply Qlt_le_weak, Qnot_le_lt. intros Hle.
  apply Qle_bool_iff in Hle. congruence.
Qed.

Lemma insert_sorted x l :
  StronglySorted Qle l -> StronglySorted Qle (insert x l).
Proof.
  induction 1 as [|y ys Hs IH Hall]; simpl.
  - constructor; constructor.
  - destruct (Qle_bool x y) eqn:E.
    + apply Qle_bool_iff in E. constructor.
      * now constructor.
      * constructor; [exact E|].
        eapply Forall_impl; [|exact Hall].
        intros z Hz. now apply Qle_trans with y.
    + apply Qle_bool_false in E. constructor; [exact IH|].
      apply Forall_forall. intros z Hz.
      apply (Permutation_in _ (insert_perm x ys)) in Hz.
      destruct Hz as [<-|Hz]; [exact E|].
      rewrite Forall_forall in Hall. now apply Hall.
Qed.

Lemma sorted_ascending l : StronglySorted Qle (sorted l).
Proof.
  induction l as [|x xs IH]; simpl.
  - constructor.
  - now apply insert_sorted.
Qed.

(** Indexing inside the bounds returns the element at that position. *)
Lemma getitem_in_range l k :
  0 <= k < len l -> getitem l k = Ret (nth (Z.to_nat k) l 0%Q).
Proof.
  intros [H0 H1]. unfold getitem.
  destruct (k <? 0) eqn:E0; [apply Z.ltb_lt in E0; lia|].
  rewrite E0. simpl.
  destruct (len l <=? k) eqn:E1; [apply Z.leb_le in E1; lia|].
  destruct (nth_error l (Z.to_nat k)) eqn:En.
  - f_equal. symmetry. now apply nth_error_nth.
  - apply nth_error_None in En. unfold len in H1. lia.
Qed.

(** Indexing at or past the length raises [IndexError]. *)
Lemma getitem_past_end l k : len l <= k -> getitem l k = Raise IndexError.
Proof.
  intros H. pose proof (len_nonneg l). unfold getitem.
  destruct (k <? 0) eqn:E0; [apply Z.ltb_lt in E0; lia|].
  rewrite E0. simpl.
  destruct (len l <=? k) eqn:E1; [reflexivity|].
  apply Z.leb_gt in E1. lia.
Qed.

(** [int(n * 0.95)] and [int(n * 0.99)] for a length n. *)
Lemma int_percent n a : 0 <= n -> 0 <= a -> int (inject_Z n * (a # 100)) = n * a / 100.
Proof.
  intros Hn Ha. unfold int. simpl.
  rewrite Z.quot_div_nonneg; [reflexivity | lia | lia].
Qed.

Lemma percent_index_bounds n a : 1 <= n -> 0 <= a < 100 -> 0 <= n * a / 100 < n.
Proof.
  intros Hn Ha. split.
  - apply Z.div_pos; lia.
  - apply Z.div_lt_upper_bound; nia.
Qed.

Lemma Qltb_true a b : Qltb a b = true -> (a <= b)%Q.
Proof.
  unfold Qltb. intros H. apply negb_true_iff in H. now apply Qle_bool_false.
Qed.

Lemma Qltb_false a b : Qltb a b = false -> (b <= a)%Q.
Proof.
  unfold Qltb. intros H. apply negb_false_iff in H. now apply Qle_bool_iff.
Qed.

Lemma fold_min_spec xs : forall m,
  let r := fold_left (fun m y => if Qltb y m then y else m) xs m in
  In r (m :: xs) /\ (r <= m)%Q /\ Forall (fun y => (r <= y)%Q) xs.
Proof.
  induction xs as [|y ys IH]; intros m; cbv zeta; cbn [fold_left].
  - split; [now left|]. split; [apply Qle_refl | constructor].
  - destruct (Qltb y m) eqn:E.
    + apply Qltb_true in E.
      destruct (IH y) as (Hin & Hle & Hall). split; [|split].
      * now right.
      * now apply Qle_trans with y.
      * constructor; assumption.
    + apply Qltb_false in E.
      destruct (IH m) as (Hin & Hle & Hall). split; [|split].
      * destruct Hin as [<-|Hin]; [now left | now right; right].
      * exact Hle.
      * constructor; [now apply Qle_trans with m | exact Hall].
Qed.

Lemma fold_max_spec xs : forall m,
  let r := fold_left (fun m y => if Qltb m y then y else m) xs m in
  In r (m :: xs) /\ (m <= r)%Q /\ Forall (fun y => (y <= r)%Q) xs.
Proof.
  induction xs as [|y ys IH]; intros m; cbv zeta; cbn [fold_left].
  - split; [now left|]. split; [apply Qle_refl | constructor].
  - destruct (Qltb m y) eqn:E.
    + apply Qltb_true in E.
      destruct (IH y) as (Hin & Hle & Hall). split; [|split].
      * now right.
      * now apply Qle_trans with y.
      * constructor; assumption.
    + apply Qltb_false in E.
      destruct (IH m) as (Hin & Hle & Hall). split; [|split].
      * destruct Hin as [<-|Hin]; [now left | now right; right].
      * exact Hle.
      * constructor; [now apply Qle_trans with m | exact Hall].
Qed.

Lemma py_min_spec l : l <> [] ->
  exists m, py_min l = Ret m /\ In m l /\ Forall (fun y => (m <= y)%Q) l.
Proof.
  destruct l as [|x xs]; [congruence|]. intros _.
  destruct (fold_min_spec xs x) as (Hin & Hle & Hall).
  eexists. split; [reflexivity|]. split; [exact Hin|].
  constructor; assumption.
Qed.

Lemma py_max_spec l : l <> [] ->
  exists m, py_max l = Ret m /\ In m l /\ Forall (fun y => (y <= m)%Q) l.
Proof.
  destruct l as [|x xs]; [congruence|]. intros _.
  destruct (fold_max_spec xs x) as (Hin & Hle & Hall).
  eexists. split; [reflexivity|]. split; [exact Hin|].
  constructor; assumption.
Qed.

Lemma nonempty_len {A} (l : list A) : l <> [] -> 1 <= len l.
Proof.
  destruct l; [congruence|]. intros _. rewrite len_cons.
  pose proof (len_nonneg l). lia.
Qed.

Lemma nth_sorted_In l k : (k < List.length l)%nat -> In (nth k (sorted l) 0%Q) l.
Proof.
  intros H. apply sorted_In, nth_In. now rewrite sorted_length.
Qed.

(** The median of a non-empty list exists and lies between any two bounds of
    the list. *)
Lemma median_between lo hi l :
  l <> [] -> Forall (fun y => (lo <= y /\ y <= hi)%Q) l ->
  exists md, median l = Ret md /\ (lo <= md /\ md <= hi)%Q.
Proof.
  intros Hne Hall. pose proof (nonempty_len l Hne) as Hlen.
  assert (Hnth : forall k, 0 <= k < len l ->
            (lo <= nth (Z.to_nat k) (sorted l) 0 /\ nth (Z.to_nat k) (sorted l) 0 <= hi)%Q).
  { intros k Hk. rewrite Forall_forall in Hall. apply Hall, nth_sorted_In.
    unfold len in Hk. lia. }
  unfold median. rewrite len_sorted.
  destruct (len l =? 0) eqn:E0; [apply Z.eqb_eq in E0; lia|].
  destruct (len l mod 2 =? 1) eqn:E1.
  - assert (Hk : 0 <= len l / 2 < len l).
    { split; [apply Z.div_pos; lia | apply Z.div_lt; lia]. }
    rewrite getitem_in_range by (rewrite len_sorted; exact Hk).
    eexists. split; [reflexivity|]. now apply Hnth.
  - apply Z.eqb_neq in E1.
    assert (Hk : 1 <= len l / 2 < len l).
    { pose proof (Z.div_mod (len l) 2 ltac:(lia)).
      pose proof (Z.mod_pos_bound (len l) 2 ltac:(lia)). lia. }
    rewrite !getitem_in_range by (rewrite len_sorted; lia).
    eexists. split; [reflexivity|].
    destruct (Hnth (len l / 2 - 1) ltac:(lia)) as [Ha1 Ha2].
    destruct (Hnth (len l / 2) ltac:(lia)) as [Hb1 Hb2].
    unfold Qdiv. change (/ 2)%Q with (1 # 2)%Q. split; lra.
Qed.

Lemma median_defined l : l <> [] -> exists md, median l = Ret md.
Proof.
  intros Hne.
  destruct (py_min_spec l Hne) as (mn & _ & _ & Hmn).
  destruct (py_max_spec l Hne) as (mx & _ & _ & Hmx).
  destruct (median_between mn mx l Hne) as (md & Hmd & _).
  - rewrite Forall_forall in *. intros y Hy. split; [now apply Hmn | now apply Hmx].
  - now exists md.
Qed.

(** Adding non-negative numbers from the left never goes below the start
    plus any one of them. *)
Lemma fold_sum_ge l : forall a,
  Forall (fun y => (0 <= y)%Q) l ->
  (a <= fold_left Qplus l a)%Q /\
  forall y, In y l -> (a + y <= fold_left Qplus l a)%Q.
Proof.
  induction l as [|x xs IH]; intros a Hall; simpl.
  - split; [apply Qle_refl | intros y []].
  - inversion Hall as [|? ? Hx Hxs]; subst.
    destruct (IH (a + x)%Q Hxs) as [H1 H2]. split.
    + lra.
    + intros y [<-|Hy]; [exact H1|].
      specialize (H2 y Hy). lra.
Qed.

Lemma py_sum_ge_each l y :
  Forall (fun y => (0 <= y)%Q) l -> In y l -> (y <= py_sum l)%Q.
Proof.
  intros Hall Hy. unfold py_sum.
  destruct (fold_sum_ge l 0%Q Hall) as [_ H]. specialize (H y Hy). lra.
Qed.

Lemma p95_index_floor l : p95_index l = len l * 95 / 100.
Proof. apply int_percent; [apply len_nonneg | lia]. Qed.

Lemma p99_index_floor l : p99_index l = len l * 99 / 100.
Proof. apply int_percent; [apply len_nonneg | lia]. Qed.

Lemma p95_index_bounds l : l <> [] -> 0 <= p95_index l < len l.
Proof.
  intros H. rewrite p95_index_floor.
  apply percent_index_bounds; [now apply nonempty_len | lia].
Qed.

Lemma p99_index_bounds l : l <> [] -> 0 <= p99_index l < len l.
Proof.
  intros H. rewrite p99_index_floor.
  apply percent_index_bounds; [now apply nonempty_len | lia].
Qed.

(** On a non-empty list both percentiles are read inside the sorted copy:
    the [except IndexError] branch is not taken. *)
Lemma percentiles_nonempty l self : l <> [] ->
  percentiles l self =
  mkRun self []
    (Ret (VFloat (nth (Z.to_nat (p95_index l)) (sorted l) 0%Q),
          VFloat (nth (Z.to_nat (p99_index l)) (sorted l) 0%Q))).
Proof.
  intros H. unfold percentiles, try_except, bind, lift, ret.
  fold (p95_index l). fold (p99_index l). cbn [result self_after printed].
  rewrite (getitem_in_range (sorted l) (p95_index l))
    by (rewrite len_sorted; now apply p95_index_bounds).
  cbn [result self_after printed].
  rewrite (getitem_in_range (sorted l) (p99_index l))
    by (rewrite len_sorted; now apply p99_index_bounds).
  reflexivity.
Qed.

(** ** What [show_results] prints, case by case *)

Lemma truediv_zero a b : (b == 0)%Q -> truediv a b = Raise ZeroDivisionError.
Proof.
  intros H. unfold truediv. apply Qeq_bool_iff in H. now rewrite H.
Qed.

Lemma truediv_nonzero a b : ~ (b == 0)%Q -> truediv a b = Ret (a / b)%Q.
Proof.
  intros H. unfold truediv. destruct (Qeq_bool b 0) eqn:E; [|reflexivity].
  apply Qeq_bool_iff in E. contradiction.
Qed.

Lemma inject_Z_zero n : (inject_Z n == 0)%Q <-> n = 0.
Proof.
  unfold Qeq. simpl. lia.
Qed.

Lemma mean_nonempty l : l <> [] -> mean l = Ret (py_sum l / inject_Z (len l))%Q.
Proof. destruct l; [congruence | reflexivity]. Qed.

Lemma is_empty_false {A} (l : list A) : l <> [] -> is_empty l = false.
Proof. destruct l; [congruence | reflexivity]. Qed.

Lemma bind_Ret {A B} (m : M A) (k : A -> M B) self s1 o1 a :
  m self = mkRun s1 o1 (Ret a) ->
  bind m k self =
  mkRun (self_after (k a s1)) (o1 ++ printed (k a s1)) (result (k a s1)).
Proof. intros H. unfold bind. rewrite H. reflexivity. Qed.

Ltac py_step := cbn [bind get_self print lift ret result self_after printed app].

(** No durations: one line, nothing else. *)
Lemma show_results_empty self :
  results self = [] -> show_results self = mkRun self [LNoSuccessful] (Ret tt).
Proof.
  intros H. unfold show_results. py_step. rewrite H. reflexivity.
Qed.

(** Durations but [num_requests] is 0: line 96 divides by zero. *)
Lemma show_results_no_requests self :
  results self <> [] -> num_requests self = 0 ->
  show_results self =
  mkRun self
    [LHeader; LTotalRequests (num_requests self);
     LSuccessful (successful_requests self); LFailedCount (failed_requests self)]
    (Raise ZeroDivisionError).
Proof.
  intros Hne Hn. unfold show_results. py_step.
  rewrite (is_empty_false _ Hne). py_step.
  rewrite truediv_zero by (now apply inject_Z_zero). reflexivity.
Qed.

(** Durations that add up to zero: line 113 divides by zero. *)
Lemma show_results_zero_sum self :
  results self <> [] -> num_requests self <> 0 -> (py_sum (results self) == 0)%Q ->
  show_results self =
  mkRun self
    [LHeader; LTotalRequests (num_requests self);
     LSuccessful (successful_requests self); LFailedCount (failed_requests self);
     LSuccessRate (inject_Z (successful_requests self)
                   / inject_Z (num_requests self) * 100)]
    (Raise ZeroDivisionError).
Proof.
  intros Hne Hn Hsum. unfold show_results. py_step.
  rewrite (is_empty_false _ Hne). py_step.
  rewrite truediv_nonzero by (now rewrite inject_Z_zero). py_step.
  rewrite (mean_nonempty _ Hne). py_step.
  destruct (py_min_spec _ Hne) as (mn & -> & _). py_step.
  destruct (py_max_spec _ Hne) as (mx & -> & _). py_step.
  destruct (median_defined _ Hne) as (md & ->). py_step.
  rewrite (bind_Ret _ _ _ _ _ _ (percentiles_nonempty _ self Hne)). py_step.
  rewrite (truediv_zero _ _ Hsum). reflexivity.
Qed.

Lemma show_results_report self :
  results self <> [] -> num_requests self <> 0 -> ~ (py_sum (results self) == 0)%Q ->
  exists avg mn mx md,
    mean (results self) = Ret avg /\ py_min (results self) = Ret mn /\
    py_max (results self) = Ret mx /\ median (results self) = Ret md /\
    show_results self = mkRun self (report self avg mn mx md) (Ret tt).
Proof.
  intros Hne Hn Hsum.
  destruct (py_min_spec _ Hne) as (mn & Hmn & _).
  destruct (py_max_spec _ Hne) as (mx & Hmx & _).
  destruct (median_defined _ Hne) as (md & Hmd).
  exists (py_sum (results self) / inject_Z (len (results self)))%Q, mn, mx, md.
  split; [now apply mean_nonempty|]. do 3 (split; [assumption|]).
  unfold show_results. py_step.
  rewrite (is_empty_false _ Hne). py_step.
  rewrite truediv_nonzero by (now rewrite inject_Z_zero). py_step.
  rewrite (mean_nonempty _ Hne). py_step.
  rewrite Hmn. py_step. rewrite Hmx. py_step. rewrite Hmd. py_step.
  rewrite (bind_Ret _ _ _ _ _ _ (percentiles_nonempty _ self Hne)). py_step.
  rewrite (truediv_nonzero _ _ Hsum). reflexivity.
Qed.

(** [show_results] never assigns to [self]. *)
Lemma show_results_frame self : self_after (show_results self) = self.
Proof.
  destruct (results self) as [|x xs] eqn:Hres.
  - now rewrite show_results_empty.
  - assert (Hne : results self <> []) by (rewrite Hres; discriminate).
    destruct (Z.eq_dec (num_requests self) 0) as [Hn|Hn].
    + now rewrite show_results_no_requests.
    + destruct (Qeq_dec (py_sum (results self)) 0) as [Hs|Hs].
      * now rewrite show_results_zero_sum.
      * destruct (show_results_report self Hne Hn Hs) as (? & ? & ? & ? & _ & _ & _ & _ & ->).
        reflexivity.
Qed.

(** ** The rational index is the binary64 index *)

(** The two literals, as [float.hex] shows them: 0x1.e666666666666p-1 and
    0x1.fae147ae147aep-1. *)
Lemma b64_literals :
  b64_hundredths 95 = S754_finite false 0x1e666666666666 (-53) /\
  b64_hundredths 99 = S754_finite false 0x1fae147ae147ae (-53).
Proof. split; vm_compute; reflexivity. Qed.

Lemma b64_agrees_upto_10000 : forallb b64_agrees (seq 0 (Z.to_nat 10001)) = true.
Proof. vm_compute. reflexivity. Qed.

(** For every list of at most 10000 durations the indices of the model are
    the ones binary64 arithmetic produces. *)
Lemma percentile_index_binary64 (l : list Q) :
  len l <= 10000 ->
  p95_index l = b64_index (len l) 95 /\ p99_index l = b64_index (len l) 99.
Proof.
  intros H. pose proof (len_nonneg l) as H0.
  pose proof b64_agrees_upto_10000 as Hall.
  rewrite forallb_forall in Hall.
  specialize (Hall (List.length l)).
  assert (Hin : In (List.length l) (seq 0 (Z.to_nat 10001))).
  { apply in_seq. unfold len in H. lia. }
  apply Hall in Hin. unfold b64_agrees in Hin. cbv zeta in Hin.
  apply andb_true_iff in Hin as [H95 H99].
  apply Z.eqb_eq in H95, H99.
  unfold p95_index, p99_index, len. now rewrite H95, H99.
Qed.

Lemma StronglySorted_nth s :
  StronglySorted Qle s ->
  forall i j, (i <= j < List.length s)%nat -> (nth i s 0 <= nth j s 0)%Q.
Proof.
  induction 1 as [|x xs Hs IH Hall]; intros i j Hij; simpl in Hij.
  - lia.
  - destruct i as [|i], j as [|j]; simpl; try lia.
    + apply Qle_refl.
    + rewrite Forall_forall in Hall. apply Hall, nth_In. lia.
    + apply IH. lia.
Qed.

(** The last element of the sorted copy is, as a number, [max(l)]. *)
Lemma sorted_last_is_max l mx :
  py_max l = Ret mx ->
  (nth (List.length l - 1) (sorted l) 0 == mx)%Q.
Proof.
  intros Hmx.
  assert (Hne : l <> []) by (destruct l; [discriminate | discriminate]).
  destruct (py_max_spec l Hne) as (m & Hm & Hin & Hall).
  rewrite Hm in Hmx. injection Hmx as ->.
  assert (Hlen : (0 < List.length l)%nat) by (destruct l; [congruence | simpl; lia]).
  apply Qle_antisym.
  - rewrite Forall_forall in Hall. apply Hall, nth_sorted_In. lia.
  - apply sorted_In in Hin. destruct (In_nth _ _ 0%Q Hin) as (k & Hk & <-).
    apply StronglySorted_nth; [apply sorted_ascending|].
    rewrite sorted_length in *. lia.
Qed.

(** ** The summary *)

(** C2 (the code departs from it): one request answered 200 between two
    equal clock readings leaves one recorded duration of 0.0 and one success.
    The claim wants requests-per-second reported as unavailable; line 113
    divides by the zero sum, so [show_results], and [run] with it, stops with
    [ZeroDivisionError] after the success-rate line and prints no
    requests-per-second line at all. *)
Theorem C2_zero_sum_raises :
  self_after one_instant_run = one_instant /\
  result one_instant_run = Raise ZeroDivisionError /\
  (py_sum (results one_instant) == 0)%Q /\
  show_results one_instant =
  mkRun one_instant
    [LHeader; LTotalRequests 1; LSuccessful 1; LFailedCount 0;
     LSuccessRate (inject_Z 1 / inject_Z 1 * 100)]
    (Raise ZeroDivisionError).
Proof.
  split; [vm_compute; reflexivity|]. split; [vm_compute; reflexivity|].
  split; [reflexivity|].
  apply (show_results_zero_sum one_instant); [discriminate | discriminate | reflexivity].
Qed.

(** C4: with an empty duration list [show_results] prints the single
    "No successful requests to analyze." line, computes nothing else, leaves
    the object alone and returns without raising. *)
Theorem C4_empty_results_no_data self :
  results self = [] ->
  show_results self = mkRun self [LNoSuccessful] (Ret tt).
Proof. apply show_results_empty. Qed.

Lemma C4_empty_results_no_data_witness :
  results fresh = [] /\ show_results fresh = mkRun fresh [LNoSuccessful] (Ret tt).
Proof.
  split; [reflexivity | apply (C4_empty_results_no_data fresh); reflexivity].
Defined.

(** C5: whenever the report is printed (some duration recorded, configured
    count not zero) the success-rate line carries
    successful_requests / num_requests * 100, with the configured
    [num_requests] as the divisor and not the number of recorded durations;
    with 10 configured and 7 successes that is 70. *)
Theorem C5_success_rate_uses_configured_total self :
  results self <> [] -> num_requests self <> 0 ->
  (forall r, In (LSuccessRate r) (printed (show_results self)) <->
             r = (inject_Z (successful_requests self)
                  / inject_Z (num_requests self) * 100)%Q) /\
  (successful_requests self = 7 -> num_requests self = 10 ->
   forall r, In (LSuccessRate r) (printed (show_results self)) -> (r == 70)%Q).
Proof.
  intros Hne Hn.
  assert (Hmain : forall r, In (LSuccessRate r) (printed (show_results self)) <->
             r = (inject_Z (successful_requests self)
                  / inject_Z (num_requests self) * 100)%Q).
  { intros r. destruct (Qeq_dec (py_sum (results self)) 0) as [Hs|Hs].
    - rewrite (show_results_zero_sum self Hne Hn Hs). cbn [printed]. split.
      + intros H. simpl in H.
        repeat (destruct H as [H|H]; try discriminate H); [|contradiction].
        now injection H.
      + intros ->. simpl. auto 10.
    - destruct (show_results_report self Hne Hn Hs)
        as (avg & mn & mx & md & _ & _ & _ & _ & ->).
      cbn [printed]. unfold report. split.
      + intros H. simpl in H.
        repeat (destruct H as [H|H]; try discriminate H); [|contradiction].
        now injection H.
      + intros ->. simpl. auto 10. }
  split; [exact Hmain|].
  intros H7 H10 r Hr. apply Hmain in Hr. subst r. rewrite H7, H10. reflexivity.
Qed.

Lemma C5_success_rate_uses_configured_total_witness :
  results seven_of_ten <> [] /\ num_requests seven_of_ten <> 0 /\
  (forall r, In (LSuccessRate r) (printed (show_results seven_of_ten)) -> (r == 70)%Q).
Proof.
  assert (Hne : results seven_of_ten <> []) by discriminate.
  assert (Hn : num_requests seven_of_ten <> 0) by discriminate.
  split; [exact Hne|]. split; [exact Hn|].
  exact (proj2 (C5_success_rate_uses_configured_total seven_of_ten Hne Hn)
               eq_refl eq_refl).
Defined.

(** C6: on a non-empty duration list of length L the percentiles are read
    from the ascending sorted copy at floor(0.95 L) and floor(0.99 L); taking
    the smaller of that index and L - 1 changes nothing, the lookup does not
    raise, and for L = 5 both are, as numbers, [max].  On no list at all does
    lines 105-110 raise: where the index is out of range (the empty list) the
    result is the pair of "N/A". *)
Theorem C6_percentiles_nearest_rank self :
  results self <> [] ->
  let L := len (results self) in
  let s := sorted (results self) in
  StronglySorted Qle s /\ Permutation s (results self) /\
  percentiles (results self) self =
    mkRun self []
      (Ret (VFloat (nth (Z.to_nat (Z.min (L * 95 / 100) (L - 1))) s 0%Q),
            VFloat (nth (Z.to_nat (Z.min (L * 99 / 100) (L - 1))) s 0%Q))) /\
  (L = 5 ->
   exists mx, py_max (results self) = Ret mx /\
     (nth (Z.to_nat (Z.min (L * 95 / 100) (L - 1))) s 0 == mx)%Q /\
     (nth (Z.to_nat (Z.min (L * 99 / 100) (L - 1))) s 0 == mx)%Q) /\
  (forall l, exists v, percentiles l self = mkRun self [] (Ret v)) /\
  percentiles [] self = mkRun self [] (Ret (VStr "N/A", VStr "N/A")).
Proof.
  intros Hne L s. subst L s.
  split; [apply sorted_ascending|]. split; [apply sorted_perm|].
  pose proof (p95_index_bounds _ Hne) as H95.
  pose proof (p99_index_bounds _ Hne) as H99.
  rewrite p95_index_floor in H95. rewrite p99_index_floor in H99.
  split; [|split; [|split]].
  - rewrite (percentiles_nonempty _ _ Hne).
    rewrite p95_index_floor, p99_index_floor.
    rewrite !Z.min_l by lia. reflexivity.
  - intros H5. destruct (py_max_spec _ Hne) as (mx & Hmx & _).
    exists mx. split; [exact Hmx|].
    pose proof (sorted_last_is_max _ _ Hmx) as Hlast.
    assert (Hlen : List.length (results self) = 5%nat) by (unfold len in H5; lia).
    rewrite Hlen in Hlast. rewrite H5. split; exact Hlast.
  - intros [|x xs].
    + eexists. reflexivity.
    + eexists. apply percentiles_nonempty. discriminate.
  - reflexivity.
Qed.

Lemma C6_percentiles_nearest_rank_witness :
  results seven_of_ten <> [] /\
  percentiles (results seven_of_ten) seven_of_ten =
    mkRun seven_of_ten [] (Ret (VFloat (5 # 10), VFloat (5 # 10))).
Proof.
  assert (Hne : results seven_of_ten <> []) by discriminate.
  split; [exact Hne|].
  exact (proj1 (proj2 (proj2 (C6_percentiles_nearest_rank seven_of_ten Hne)))).
Defined.

(** C7: for a list of length L >= 1 both percentile indices are below L (and
    not negative), so the lookups of lines 106-107 are in range and the
    "N/A" branch of line 108 is never the result. *)
Theorem C7_percentile_indices_in_range (l : list Q) self :
  1 <= len l ->
  (0 <= p95_index l < len l) /\ (0 <= p99_index l < len l) /\
  (exists a b, getitem (sorted l) (p95_index l) = Ret a /\
               getitem (sorted l) (p99_index l) = Ret b /\
               percentiles l self = mkRun self [] (Ret (VFloat a, VFloat b))) /\
  result (percentiles l self) <> Ret (VStr "N/A", VStr "N/A").
Proof.
  intros Hlen.
  assert (Hne : l <> []) by (intros ->; unfold len in Hlen; simpl in Hlen; lia).
  pose proof (p95_index_bounds _ Hne) as H95.
  pose proof (p99_index_bounds _ Hne) as H99.
  split; [exact H95|]. split; [exact H99|]. split.
  - exists (nth (Z.to_nat (p95_index l)) (sorted l) 0%Q),
           (nth (Z.to_nat (p99_index l)) (sorted l) 0%Q).
    split; [apply getitem_in_range; now rewrite len_sorted|].
    split; [apply getitem_in_range; now rewrite len_sorted|].
    now apply percentiles_nonempty.
  - rewrite (percentiles_nonempty _ _ Hne). cbn [result]. discriminate.
Qed.

Lemma C7_percentile_indices_in_range_witness :
  1 <= len (results seven_of_ten) /\
  p95_index (results seven_of_ten) < len (results seven_of_ten) /\
  p99_index (results seven_of_ten) < len (results seven_of_ten).
Proof.
  assert (H : 1 <= len (results seven_of_ten)) by (vm_compute; discriminate).
  split; [exact H|].
  pose proof (C7_percentile_indices_in_range (results seven_of_ten) seven_of_ten H)
    as (H95 & H99 & _).
  split; [apply H95 | apply H99].
Defined.

(** C8: for a non-empty list of non-negative durations, [min], the median,
    [max] and [sum] all exist and min <= median <= max <= sum. *)
Theorem C8_min_median_max_sum (l : list Q) :
  1 <= len l -> Forall (fun d => (0 <= d)%Q) l ->
  exists mn md mx,
    py_min l = Ret mn /\ median l = Ret md /\ py_max l = Ret mx /\
    (mn <= md)%Q /\ (md <= mx)%Q /\ (mx <= py_sum l)%Q.
Proof.
  intros Hlen Hpos.
  assert (Hne : l <> []) by (intros ->; unfold len in Hlen; simpl in Hlen; lia).
  destruct (py_min_spec l Hne) as (mn & Hmn & _ & Hlo).
  destruct (py_max_spec l Hne) as (mx & Hmx & Hin & Hhi).
  destruct (median_between mn mx l Hne) as (md & Hmd & H1 & H2).
  { rewrite Forall_forall in *. intros y Hy. split; [now apply Hlo | now apply Hhi]. }
  exists mn, md, mx. repeat (split; [assumption|]).
  now apply py_sum_ge_each.
Qed.

Lemma C8_min_median_max_sum_witness :
  exists mn md mx,
    py_min (results seven_of_ten) = Ret mn /\
    median (results seven_of_ten) = Ret md /\
    py_max (results seven_of_ten) = Ret mx /\
    (mn <= md)%Q /\ (md <= mx)%Q /\ (mx <= py_sum (results seven_of_ten))%Q.
Proof.
  apply (C8_min_median_max_sum (results seven_of_ten)).
  - vm_compute. discriminate.
  - repeat constructor; vm_compute; discriminate.
Defined.

(** C10: [show_results] leaves the object as it found it: the duration list
    with its order, both counters and every other field; sorting is done on
    a copy.  Asked again, it prints the same lines and ends the same way. *)
Theorem C10_show_results_does_not_mutate self :
  self_after (show_results self) = self /\
  results (self_after (show_results self)) = results self /\
  successful_requests (self_after (show_results self)) = successful_requests self /\
  failed_requests (self_after (show_results self)) = failed_requests self /\
  show_results (self_after (show_results self)) = show_results self.
Proof.
  rewrite show_results_frame. repeat split; reflexivity.
Qed.

(** ** What one request does to the object *)

Lemma make_request_unsupported net i self :
  supported (method self) = false ->
  make_request net i self = mkRun self [LUnsupported (method self)] (Ret tt).
Proof.
  unfold supported, make_request, try_except. intros H.
  apply orb_false_elim in H as [H HD]. apply orb_false_elim in H as [H HU].
  apply orb_false_elim in H as [HG HP].
  py_step. rewrite HG, HP, HU, HD. reflexivity.
Qed.

Lemma make_request_status net i self code :
  supported (method self) = true -> answer_of (net i) = Status code ->
  make_request net i self =
  mkRun ((if (200 <=? code) && (code <? 300) then incr_successful else incr_failed)
           (append_result (elapsed_of net i) self))
        [LRequest i code (elapsed_of net i)] (Ret tt).
Proof.
  unfold supported, make_request, try_except, session_request, elapsed_of.
  intros H Ha. py_step. rewrite Ha.
  destruct (method self =? "GET")%string;
    [|destruct (method self =? "POST")%string;
      [|destruct (method self =? "PUT")%string;
        [|destruct (method self =? "DELETE")%string; [|discriminate H]]]];
    py_step; destruct ((200 <=? code) && (code <? 300)); reflexivity.
Qed.

Lemma make_request_raises net i self e :
  supported (method self) = true -> answer_of (net i) = Raises e ->
  make_request net i self =
  mkRun (incr_failed self) [LFailed i (elapsed_of net i) e] (Ret tt).
Proof.
  unfold supported, make_request, try_except, session_request, elapsed_of.
  intros H Ha. py_step. rewrite Ha.
  destruct (method self =? "GET")%string;
    [|destruct (method self =? "POST")%string;
      [|destruct (method self =? "PUT")%string;
        [|destruct (method self =? "DELETE")%string; [|discriminate H]]]];
    reflexivity.
Qed.

(** The effect of one request on the three accumulators, in one equation
    each. *)
Lemma make_request_effect net i self :
  let self' := self_after (make_request net i self) in
  method self' = method self /\
  num_requests self' = num_requests self /\
  concurrency self' = concurrency self /\
  results self' =
    results self ++
    (if supported (method self) && answered net i then [elapsed_of net i] else []) /\
  successful_requests self' =
    successful_requests self +
    (if supported (method self) && succeeded net i then 1 else 0) /\
  failed_requests self' =
    failed_requests self +
    (if supported (method self) && negb (succeeded net i) then 1 else 0).
Proof.
  cbv zeta. unfold answered, succeeded.
  destruct (supported (method self)) eqn:Hs.
  - destruct (answer_of (net i)) as [code|e] eqn:Ha.
    + rewrite (make_request_status net i self code Hs Ha). cbn [self_after andb].
      destruct ((200 <=? code) && (code <? 300)); cbn;
        repeat split; try reflexivity; lia.
    + rewrite (make_request_raises net i self e Hs Ha). cbn.
      repeat split; try reflexivity; try lia. now rewrite app_nil_r.
  - rewrite (make_request_unsupported net i self Hs). cbn.
    repeat split; try reflexivity; try lia. now rewrite app_nil_r.
Qed.


(** ** Invariants of the event loop *)

Lemma finished_app h1 h2 : finished (h1 ++ h2) = finished h1 ++ finished h2.
Proof. unfold finished. apply flat_map_app. Qed.

Lemma finished_In h i : In i (finished h) <-> In (Finish i) h.
Proof.
  unfold finished. rewrite in_flat_map. split.
  - intros (e & He & Hi). destruct e as [j|j]; simpl in Hi; [contradiction|].
    destruct Hi as [<-|[]]. exact He.
  - intros H. exists (Finish i). split; [exact H | now left].
Qed.

Lemma remove_nth_perm {A} (l : list A) : forall k i,
  nth_error l k = Some i -> Permutation (i :: remove_nth k l) l.
Proof.
  induction l as [|x xs IH]; intros [|k] i H; simpl in *; try discriminate.
  - injection H as ->. apply Permutation_refl.
  - apply perm_trans with (x :: i :: remove_nth k xs).
    + apply perm_swap.
    + apply perm_skip. now apply IH.
Qed.

Lemma remove_nth_length {A} (l : list A) : forall k i,
  nth_error l k = Some i -> S (List.length (remove_nth k l)) = List.length l.
Proof.
  intros k i H. apply (Permutation_length (remove_nth_perm l k i H)).
Qed.

Lemma filter_perm_len {A} (p : A -> bool) (l1 l2 : list A) :
  Permutation l1 l2 -> len (filter p l1) = len (filter p l2).
Proof.
  intros H. unfold len. f_equal. apply Permutation_length.
  induction H; simpl.
  - constructor.
  - destruct (p x); [now constructor | assumption].
  - destruct (p x), (p y); try apply Permutation_refl. apply perm_swap.
  - eapply perm_trans; eassumption.
Qed.

Lemma steps_trans net s t u : steps net s t -> steps net t u -> steps net s u.
Proof.
  intros Hst Htu. induction Htu as [|u v _ IH Hstep]; [exact Hst|].
  eapply steps_more; [exact IH | exact Hstep].
Qed.

Lemma steps_one net s t : step net s t -> steps net s t.
Proof. intros H. eapply steps_more; [apply steps_refl | exact H]. Qed.

Section Loop.

Variable net : network.
Variable self0 : APIStressTest.
Variable bs : list (list Z).

Lemma tally_boot : tally net self0 (boot self0 bs).
Proof.
  unfold tally, boot. cbn. rewrite app_nil_r. repeat split; lia.
Qed.

Lemma census_boot : census bs (boot self0 bs).
Proof. unfold census, boot. cbn. apply Permutation_refl. Qed.

Lemma tally_step s t : tally net self0 s -> step net s t -> tally net self0 t.
Proof.
  intros Ht Hstep. destruct Hstep as [s b q _ _ _ | s i rest _ | s k i _].
  - exact Ht.
  - unfold tally, start_next in *. cbn [obj history].
    rewrite finished_app. cbn [finished flat_map]. rewrite app_nil_r. exact Ht.
  - unfold tally in *. cbv zeta in *.
    destruct Ht as (Hm & Hn & Hc & Hr & Hs & Hf).
    destruct (make_request_effect net i (obj s)) as (Em & En & Ec & Er & Es & Ef).
    unfold finish_at. cbn [obj history]. rewrite finished_app.
    cbn [finished flat_map]. rewrite app_nil_r, !filter_app, !map_app, !len_app.
    rewrite Em, En, Ec, Er, Es, Ef, Hm, Hn, Hc, Hr, Hs, Hf.
    cbn [filter].
    repeat split; try reflexivity.
    + rewrite <- app_assoc. f_equal. f_equal.
      destruct (supported (method self0) && answered net i); reflexivity.
    + destruct (supported (method self0) && succeeded net i); cbn; lia.
    + destruct (supported (method self0) && negb (succeeded net i)); cbn; lia.
Qed.

Lemma census_step s t : census bs s -> step net s t -> census bs t.
Proof.
  unfold census. intros Hc Hstep.
  destruct Hstep as [s b q Hcr Hin Hq | s i rest Hcr | s k i Hk].
  - unfold gather_next. cbn [history inflight created queue].
    rewrite Hcr, Hq in Hc. cbn [List.concat app] in *. exact Hc.
  - unfold start_next. cbn [history inflight created queue].
    rewrite finished_app. cbn [finished flat_map]. rewrite app_nil_r.
    rewrite Hcr in Hc. eapply perm_trans; [|exact Hc].
    apply Permutation_app_head. rewrite <- app_assoc.
    apply Permutation_app_head. apply Permutation_refl.
  - unfold finish_at. cbn [history inflight created queue].
    rewrite finished_app. cbn [finished flat_map]. rewrite app_nil_r.
    eapply perm_trans; [|exact Hc]. rewrite <- app_assoc.
    apply Permutation_app_head. cbn [app].
    apply (Permutation_app_tail _ (remove_nth_perm _ k i Hk)).
Qed.

Lemma tally_steps s : steps net (boot self0 bs) s -> tally net self0 s.
Proof.
  induction 1 as [|s t _ IH Hstep]; [apply tally_boot|].
  eapply tally_step; eassumption.
Qed.

Lemma census_steps s : steps net (boot self0 bs) s -> census bs s.
Proof.
  induction 1 as [|s t _ IH Hstep]; [apply census_boot|].
  eapply census_step; eassumption.
Qed.

Lemma final_finished s :
  steps net (boot self0 bs) s -> final s ->
  Permutation (finished (history s)) (List.concat bs).
Proof.
  intros Hs (Hq & Hc & Hi). pose proof (census_steps s Hs) as H.
  unfold census in H. rewrite Hq, Hc, Hi in H. cbn in H.
  now rewrite app_nil_r in H.
Qed.

End Loop.

(** ** [range] and the batches *)

Lemma slice_inside {A} (l : list A) i c :
  0 <= i < len l -> 1 <= c ->
  slice l i (i + c) =
  firstn (Z.to_nat (Z.min (len l) (i + c) - i)) (skipn (Z.to_nat i) l).
Proof.
  intros Hi Hc. unfold slice, clip.
  destruct (i <? 0) eqn:E1; [apply Z.ltb_lt in E1; lia|].
  destruct (i + c <? 0) eqn:E2; [apply Z.ltb_lt in E2; lia|].
  rewrite (Z.min_r (len l) i) by lia. reflexivity.
Qed.

Lemma len_slice_inside {A} (l : list A) i c :
  0 <= i < len l -> 1 <= c ->
  len (slice l i (i + c)) = Z.min (len l) (i + c) - i.
Proof.
  intros Hi Hc. rewrite slice_inside by assumption.
  unfold len in *. rewrite length_firstn, length_skipn. lia.
Qed.

Lemma range_from_stop fuel i stop step :
  0 < step -> stop <= i -> range_from fuel i stop step = [].
Proof.
  intros Hs Hi. destruct fuel; [reflexivity|]. simpl.
  destruct (0 <? step) eqn:E1; [|apply Z.ltb_ge in E1; lia].
  destruct (i <? stop) eqn:E2; [apply Z.ltb_lt in E2; lia|].
  destruct (step <? 0) eqn:E3; [apply Z.ltb_lt in E3; lia|]. reflexivity.
Qed.

Lemma range_from_go fuel i stop step :
  0 < step -> i < stop ->
  range_from (S fuel) i stop step = i :: range_from fuel (i + step) stop step.
Proof.
  intros Hs Hi. simpl.
  destruct (0 <? step) eqn:E1; [|apply Z.ltb_ge in E1; lia].
  destruct (i <? stop) eqn:E2; [|apply Z.ltb_ge in E2; lia]. reflexivity.
Qed.

(** [range(start, stop)] counts from start to stop - 1. *)
Lemma range_from_unit fuel : forall i stop,
  stop - i <= Z.of_nat fuel ->
  range_from fuel i stop 1 =
  map (fun k => i + Z.of_nat k) (seq 0 (Z.to_nat (stop - i))).
Proof.
  induction fuel as [|fuel IH]; intros i stop Hf.
  - simpl. replace (Z.to_nat (stop - i)) with 0%nat by lia. reflexivity.
  - destruct (Z_lt_le_dec i stop) as [Hlt|Hge].
    + rewrite range_from_go by lia. rewrite IH by lia.
      replace (Z.to_nat (stop - i)) with (S (Z.to_nat (stop - (i + 1)))) by lia.
      cbn [seq map]. f_equal; [lia|].
      rewrite <- seq_shift, map_map. apply map_ext. intros k. lia.
    + rewrite range_from_stop by lia.
      replace (Z.to_nat (stop - i)) with 0%nat by lia. reflexivity.
Qed.

Lemma py_range2_seq n :
  py_range2 1 (n + 1) = map (fun k => 1 + Z.of_nat k) (seq 0 (Z.to_nat n)).
Proof.
  unfold py_range2. rewrite range_from_unit by lia.
  replace (n + 1 - 1) with n by lia. reflexivity.
Qed.

Lemma len_py_range2 n : 0 <= n -> len (py_range2 1 (n + 1)) = n.
Proof.
  intros H. rewrite py_range2_seq. unfold len.
  rewrite length_map, length_seq. lia.
Qed.

Lemma py_range2_In n x : In x (py_range2 1 (n + 1)) <-> 1 <= x <= n.
Proof.
  rewrite py_range2_seq, in_map_iff. split.
  - intros (k & <- & Hk). apply in_seq in Hk. lia.
  - intros H. exists (Z.to_nat (x - 1)). split; [lia|]. apply in_seq. lia.
Qed.

Lemma NoDup_map_inj {A B} (f : A -> B) (l : list A) :
  (forall a b, f a = f b -> a = b) -> NoDup l -> NoDup (map f l).
Proof.
  intros Hinj. induction 1 as [|x xs Hx _ IH]; simpl; constructor.
  - rewrite in_map_iff. intros (y & Hy & Hin).
    apply Hinj in Hy. now subst y.
  - exact IH.
Qed.

Lemma py_range2_NoDup n : NoDup (py_range2 1 (n + 1)).
Proof.
  rewrite py_range2_seq. apply NoDup_map_inj.
  - intros a b H. lia.
  - apply seq_NoDup.
Qed.

Section Batches.

Variable tasks : list Z.
Variable c : Z.
Hypothesis c_pos : 1 <= c.

Let cut : Z -> list Z := batch_at tasks c.

Lemma batches_from_concat fuel : forall i,
  0 <= i -> len tasks - i <= Z.of_nat fuel ->
  List.concat (map cut (range_from fuel i (len tasks) c)) = skipn (Z.to_nat i) tasks.
Proof.
  induction fuel as [|fuel IH]; intros i Hi Hf.
  - simpl. symmetry. apply skipn_all2. unfold len in Hf. lia.
  - destruct (Z_lt_le_dec i (len tasks)) as [Hlt|Hge].
    + rewrite range_from_go by lia. cbn [map List.concat].
      rewrite IH by lia. unfold cut, batch_at. rewrite slice_inside by lia.
      destruct (Z_le_gt_dec (i + c) (len tasks)) as [Hle|Hgt].
      * rewrite Z.min_r by lia.
        replace (Z.to_nat (i + c)) with (Z.to_nat (i + c - i) + Z.to_nat i)%nat by lia.
        rewrite <- skipn_skipn. apply firstn_skipn.
      * rewrite Z.min_l by lia.
        rewrite (skipn_all2 (n := Z.to_nat (i + c))) by (unfold len in Hgt; lia).
        rewrite app_nil_r. apply firstn_all2.
        rewrite length_skipn. unfold len. lia.
    + rewrite range_from_stop by lia. simpl. symmetry.
      apply skipn_all2. unfold len in Hge. lia.
Qed.

Lemma batches_from_shape fuel : forall i,
  0 <= i -> len tasks - i <= Z.of_nat fuel ->
  let bs := map cut (range_from fuel i (len tasks) c) in
  Forall (fun b => 1 <= len b <= c) bs /\
  (forall k, (S k < List.length bs)%nat -> len (nth k bs []) = c) /\
  len bs = (Z.max 0 (len tasks - i) + c - 1) / c.
Proof.
  induction fuel as [|fuel IH]; intros i Hi Hf; cbv zeta.
  - simpl. split; [constructor|]. split; [intros k Hk; simpl in Hk; lia|].
    rewrite Z.max_l by lia. unfold len at 1. simpl.
    symmetry. apply Z.div_small. lia.
  - destruct (Z_lt_le_dec i (len tasks)) as [Hlt|Hge].
    + rewrite range_from_go by lia. cbn [map].
      destruct (IH (i + c) ltac:(lia) ltac:(lia)) as (Hall & Hfull & Hcount).
      cbv zeta in Hall, Hfull, Hcount.
      assert (Hhead : len (cut i) = Z.min (len tasks) (i + c) - i).
      { unfold cut, batch_at. apply len_slice_inside; lia. }
      split; [|split].
      * constructor; [lia | exact Hall].
      * intros [|k] Hk; cbn [nth List.length] in *.
        -- rewrite Hhead.
           destruct (Z_le_gt_dec (len tasks) (i + c)) as [Hle|Hgt]; [|lia].
           rewrite range_from_stop in Hk by lia. simpl in Hk. lia.
        -- apply Hfull. lia.
      * rewrite len_cons, Hcount.
        destruct (Z_le_gt_dec (len tasks) (i + c)) as [Hle|Hgt].
        -- rewrite (Z.max_l 0 (len tasks - (i + c))) by lia.
           rewrite (Z.max_r 0 (len tasks - i)) by lia.
           rewrite (Z.div_small (0 + c - 1) c) by lia.
           apply Z.div_unique with (r := len tasks - i - 1); lia.
        -- rewrite !Z.max_r by lia.
           replace (len tasks - i + c - 1) with (len tasks - (i + c) + c - 1 + 1 * c) by lia.
           rewrite Z.div_add by lia. lia.
    + rewrite range_from_stop by lia. simpl.
      split; [constructor|]. split; [intros k Hk; simpl in Hk; lia|].
      rewrite Z.max_l by lia. unfold len at 1. simpl.
      symmetry. apply Z.div_small. lia.
Qed.

(** With a positive step the loop of line 79 cuts [tasks] into consecutive
    pieces of [c], the last one possibly shorter. *)
Lemma batches_partition :
  exists bs,
    batches tasks c = Ret bs /\
    List.concat bs = tasks /\
    Forall (fun b => 1 <= len b <= c) bs /\
    (forall k, (S k < List.length bs)%nat -> len (nth k bs []) = c) /\
    len bs = (len tasks + c - 1) / c.
Proof.
  unfold batches, py_range.
  destruct (c =? 0) eqn:E; [apply Z.eqb_eq in E; lia|].
  pose proof (len_nonneg tasks) as Hn.
  eexists. split; [reflexivity|].
  fold cut.
  destruct (batches_from_shape (Z.to_nat (Z.abs (len tasks - 0))) 0 ltac:(lia) ltac:(lia))
    as (Hall & Hfull & Hcount).
  cbv zeta in Hall, Hfull, Hcount.
  split; [|split; [exact Hall | split; [exact Hfull|]]].
  - rewrite batches_from_concat by lia. reflexivity.
  - rewrite Hcount. rewrite Z.max_r by lia. f_equal. lia.
Qed.

End Batches.

(** ** The executable schedule is one of the executions *)

Lemma start_all_steps net fuel : forall s,
  (List.length (created s) <= fuel)%nat ->
  steps net s (start_all fuel s) /\
  created (start_all fuel s) = [] /\
  inflight (start_all fuel s) = inflight s ++ created s /\
  queue (start_all fuel s) = queue s.
Proof.
  induction fuel as [|fuel IH]; intros s Hlen.
  - simpl. destruct (created s) eqn:E; [|simpl in Hlen; lia].
    rewrite app_nil_r. repeat split. apply steps_refl.
  - simpl. destruct (created s) as [|i rest] eqn:E.
    + rewrite app_nil_r. repeat split; [apply steps_refl | exact E].
    + destruct (IH (start_next i rest s)) as (Hs & Hc & Hi & Hq).
      { simpl in *. lia. }
      split; [|split; [exact Hc | split]].
      * eapply steps_trans; [|exact Hs]. apply steps_one. now constructor.
      * rewrite Hi. cbn. now rewrite <- app_assoc.
      * rewrite Hq. reflexivity.
Qed.

Lemma finish_all_steps net pick fuel : forall s,
  (List.length (inflight s) <= fuel)%nat ->
  steps net s (finish_all net pick fuel s) /\
  inflight (finish_all net pick fuel s) = [] /\
  created (finish_all net pick fuel s) = created s /\
  queue (finish_all net pick fuel s) = queue s.
Proof.
  induction fuel as [|fuel IH]; intros s Hlen.
  - simpl. destruct (inflight s) eqn:E; [|simpl in Hlen; lia].
    repeat split. apply steps_refl.
  - cbn [finish_all]. cbv zeta.
    destruct (nth_error (inflight s) (pick (inflight s) mod List.length (inflight s)))
      as [i|] eqn:E.
    + destruct (IH (finish_at net (pick (inflight s) mod List.length (inflight s)) i s))
        as (Hs & Hi & Hc & Hq).
      { cbn [finish_at inflight]. pose proof (remove_nth_length _ _ _ E). lia. }
      split; [|split; [exact Hi | split; [exact Hc | exact Hq]]].
      eapply steps_trans; [|exact Hs]. apply steps_one. now constructor.
    + split; [apply steps_refl|]. split; [|split; reflexivity].
      apply nth_error_None in E.
      destruct (inflight s) as [|x xs]; [reflexivity|].
      exfalso.
      pose proof (Nat.mod_upper_bound (pick (x :: xs)) (List.length (x :: xs))
                    ltac:(simpl; lia)).
      lia.
Qed.

Lemma drive_steps net pick : forall bs s,
  queue s = bs -> created s = [] -> inflight s = [] ->
  steps net s (drive net pick bs s) /\ final (drive net pick bs s).
Proof.
  induction bs as [|b q IH]; intros s Hq Hc Hi.
  - simpl. split; [apply steps_refl | now repeat split].
  - cbn [drive]. cbv zeta.
    set (s1 := gather_next b q s).
    destruct (start_all_steps net (List.length b) s1 ltac:(cbn; lia))
      as (Hs2 & Hc2 & Hi2 & Hq2).
    set (s2 := start_all (List.length b) s1) in *.
    destruct (finish_all_steps net pick (List.length b) s2) as (Hs3 & Hi3 & Hc3 & Hq3).
    { rewrite Hi2. subst s1. cbn. rewrite Hi. cbn. lia. }
    set (s3 := finish_all net pick (List.length b) s2) in *.
    destruct (IH s3) as (Hs4 & Hfin).
    { rewrite Hq3, Hq2. reflexivity. }
    { rewrite Hc3. exact Hc2. }
    { exact Hi3. }
    split; [|exact Hfin].
    eapply steps_trans; [|exact Hs4].
    eapply steps_trans; [|exact Hs3].
    eapply steps_trans; [|exact Hs2].
    apply steps_one. subst s1. now constructor.
Qed.

Lemma print_all_banner self :
  print_all (banner self) self = mkRun self (banner self) (Ret tt).
Proof. reflexivity. Qed.

Lemma run_unfold net pick self :
  run net pick self =
  match batches (py_range2 1 (num_requests self + 1)) (concurrency self) with
  | Raise e => mkRun self (banner self) (Raise e)
  | Ret bs =>
      let s := drive net pick bs (boot self bs) in
      mkRun (self_after (show_results (obj s)))
            (banner self ++ console s ++ printed (show_results (obj s)))
            (result (show_results (obj s)))
  end.
Proof.
  unfold run. cbn [bind get_self result self_after printed app].
  rewrite !(bind_Ret _ _ _ _ _ _ (print_all_banner self)).
  cbn [result self_after printed].
  destruct (batches (py_range2 1 (num_requests self + 1)) (concurrency self))
    as [bs|e] eqn:E.
  - unfold bind at 1 2 3. unfold lift at 1 2 3 4 5 6. cbn [result self_after printed].
    unfold bind, event_loop. cbn [result self_after printed app]. cbv zeta.
    reflexivity.
  - unfold bind, lift. cbn [result self_after printed]. now rewrite app_nil_r.
Qed.

(** Whatever [pick] is, [run] returns, and what it returns is one of the ways
    the loop can go. *)
Lemma run_runs net pick self : runs net self (run net pick self).
Proof.
  rewrite run_unfold. unfold runs.
  destruct (batches (py_range2 1 (num_requests self + 1)) (concurrency self))
    as [bs|e]; [|reflexivity].
  destruct (drive_steps net pick bs (boot self bs)) as (Hs & Hf); try reflexivity.
  cbv zeta. eexists. split; [exact Hs|]. split; [exact Hf | reflexivity].
Qed.

(** ** Batches run one after the other *)

Lemma snoc_split {A} (h h1 h2 : list A) (e x : A) :
  h ++ [e] = h1 ++ x :: h2 ->
  (h2 = [] /\ h = h1 /\ e = x) \/
  (exists h2', h2 = h2' ++ [e] /\ h = h1 ++ x :: h2').
Proof.
  intros H. destruct h2 as [|y ys].
  - left. apply app_inj_tail in H as [-> ->]. auto.
  - right. destruct (exists_last (l := y :: ys)) as (h2' & z & E); [discriminate|].
    rewrite E in *.
    change (h1 ++ x :: h2' ++ [z]) with (h1 ++ (x :: h2') ++ [z]) in H.
    rewrite app_assoc in H. apply app_inj_tail in H as [-> ->].
    exists h2'. auto.
Qed.

Lemma skipn_cons_nth {A} (l : list A) (d : A) : forall k b q,
  skipn k l = b :: q ->
  (k < List.length l)%nat /\ nth k l d = b /\ skipn (S k) l = q.
Proof.
  induction l as [|x xs IH]; intros [|k] b q H; simpl in *; try discriminate.
  - injection H as -> ->. repeat split. lia.
  - destruct (IH k b q H) as (H1 & H2 & H3). repeat split; [lia | exact H2 | exact H3].
Qed.

Lemma NoDup_app_disjoint {A} (l1 l2 : list A) x :
  NoDup (l1 ++ l2) -> In x l1 -> In x l2 -> False.
Proof.
  induction l1 as [|y ys IH]; simpl; intros Hnd H1 H2; [contradiction|].
  inversion Hnd as [|? ? Hy Hys]; subst.
  destruct H1 as [->|H1].
  - apply Hy, in_or_app. now right.
  - now apply IH.
Qed.

Lemma nth_In_concat {A} (bs : list (list A)) k x :
  In x (nth k bs []) -> In x (List.concat bs).
Proof.
  intros H. apply in_concat. exists (nth k bs []). split; [|exact H].
  apply nth_In. destruct (Nat.lt_ge_cases k (List.length bs)) as [|Hge]; [assumption|].
  rewrite nth_overflow in H by exact Hge. contradiction.
Qed.

(** A request id sits in one batch only. *)
Lemma NoDup_concat_unique (bs : list (list Z)) :
  NoDup (List.concat bs) ->
  forall a b x, In x (nth a bs []) -> In x (nth b bs []) -> a = b.
Proof.
  induction bs as [|b0 bs IH]; intros Hnd a b x Ha Hb.
  - destruct a; contradiction.
  - simpl in Hnd. destruct a as [|a], b as [|b]; simpl in Ha, Hb.
    + reflexivity.
    + exfalso. eapply NoDup_app_disjoint; [exact Hnd | exact Ha |].
      eapply nth_In_concat; exact Hb.
    + exfalso. eapply NoDup_app_disjoint; [exact Hnd | exact Hb |].
      eapply nth_In_concat; exact Ha.
    + f_equal. apply (IH (NoDup_app_remove_l _ _ Hnd) a b x Ha Hb).
Qed.

Lemma remove_nth_In {A} (l : list A) k i x :
  nth_error l k = Some i -> In x l -> x = i \/ In x (remove_nth k l).
Proof.
  intros Hk Hx.
  apply (Permutation_in _ (Permutation_sym (remove_nth_perm l k i Hk))) in Hx.
  destruct Hx as [<-|Hx]; auto.
Qed.

Lemma In_remove_nth {A} (l : list A) k i x :
  nth_error l k = Some i -> In x (remove_nth k l) -> In x l.
Proof.
  intros Hk Hx. apply (Permutation_in _ (remove_nth_perm l k i Hk)). now right.
Qed.

Section Sequencing.

Variable net : network.
Variable self0 : APIStressTest.
Variable bs : list (list Z).
Hypothesis bs_NoDup : NoDup (List.concat bs).

Lemma at_batch_boot : at_batch bs 0 (boot self0 bs).
Proof.
  unfold at_batch, boot. cbn. repeat split.
  - lia.
  - intros j i Hj. lia.
  - intros i [].
  - intros k' i Hk. discriminate.
  - intros j k i i' h1 h2 _ _ _ H. destruct h1; discriminate.
Qed.

Lemma at_batch_step s t k :
  at_batch bs k s -> step net s t -> exists k', at_batch bs k' t.
Proof.
  intros (Hk & Hq & Hdone & Hact & Hcur & Hord) Hstep.
  destruct Hstep as [s b q Hcr Hin Hqs | s i rest Hcr | s n i Hn].
  - (* the for loop moves on to the next batch *)
    rewrite Hq in Hqs.
    destruct (skipn_cons_nth bs [] k b q Hqs) as (Hlt & Hnth & Hskip).
    exists (S k). unfold at_batch, gather_next. cbn [obj console queue created inflight history]. repeat split.
    + lia.
    + now rewrite Hskip.
    + intros j i Hj Hi.
      destruct (Nat.eq_dec (S j) k) as [E|E].
      * destruct (Hcur j i (eq_sym E) Hi) as [H|[H|H]].
        -- rewrite Hcr in H. contradiction.
        -- rewrite Hin in H. contradiction.
        -- exact H.
      * apply (Hdone j i); [lia | exact Hi].
    + intros i Hi. rewrite Hin, app_nil_r in Hi. exists k. split; [reflexivity|].
      now rewrite Hnth.
    + intros k' i E Hi. injection E as <-. left. now rewrite <- Hnth.
    + exact Hord.
  - (* a task of the awaited batch begins *)
    exists k. unfold at_batch, start_next. cbn [obj console queue created inflight history]. repeat split.
    + exact Hk.
    + exact Hq.
    + intros j i' Hj Hi. apply in_or_app. left. now apply (Hdone j).
    + intros i' Hi. apply Hact. rewrite Hcr.
      apply in_app_or in Hi as [Hi|Hi].
      * apply in_or_app. left. now right.
      * apply in_app_or in Hi as [Hi|[<-|[]]].
        -- apply in_or_app. now right.
        -- apply in_or_app. left. now left.
    + intros k' i' E Hi. destruct (Hcur k' i' E Hi) as [H|[H|H]].
      * rewrite Hcr in H. destruct H as [<-|H].
        -- right. left. apply in_or_app. right. now left.
        -- now left.
      * right. left. apply in_or_app. now left.
      * right. right. apply in_or_app. now left.
    + intros j k0 a a' h1 h2 Hjk Ha Ha' Hsplit.
      apply snoc_split in Hsplit as [(_ & <- & E) | (h2' & _ & Hh)].
      * injection E as <-.
        destruct (Hact i) as (k' & -> & Hi).
        { rewrite Hcr. now left. }
        assert (k0 = k') by (eapply NoDup_concat_unique; eassumption).
        subst k0. apply (Hdone j a); [lia | exact Ha].
      * eapply Hord; eassumption.
  - (* a task in flight records its outcome and returns *)
    exists k. unfold at_batch, finish_at. cbn [obj console queue created inflight history]. repeat split.
    + exact Hk.
    + exact Hq.
    + intros j i' Hj Hi. apply in_or_app. left. now apply (Hdone j).
    + intros i' Hi. apply Hact.
      apply in_app_or in Hi as [Hi|Hi]; apply in_or_app; [now left | right].
      eapply In_remove_nth; eassumption.
    + intros k' i' E Hi. destruct (Hcur k' i' E Hi) as [H|[H|H]].
      * now left.
      * destruct (remove_nth_In _ _ _ _ Hn H) as [->|H'].
        -- right. right. apply in_or_app. right. now left.
        -- right. now left.
      * right. right. apply in_or_app. now left.
    + intros j k0 a a' h1 h2 Hjk Ha Ha' Hsplit.
      apply snoc_split in Hsplit as [(_ & _ & E) | (h2' & _ & Hh)]; [discriminate|].
      eapply Hord; eassumption.
Qed.

Lemma at_batch_steps s :
  steps net (boot self0 bs) s -> exists k, at_batch bs k s.
Proof.
  induction 1 as [|t u _ (k & IH) Hstep].
  - exists 0%nat. apply at_batch_boot.
  - eapply at_batch_step; eassumption.
Qed.

Lemma steps_batch_order s :
  steps net (boot self0 bs) s -> batch_order bs (history s).
Proof.
  intros H. destruct (at_batch_steps s H) as (k & Hk). apply Hk.
Qed.

End Sequencing.

(** ** Counting after a run *)

Lemma filter_split_len {A} (p : A -> bool) (l : list A) :
  len (filter p l) + len (filter (fun x => negb (p x)) l) = len l.
Proof.
  induction l as [|x xs IH]; [reflexivity|].
  cbn [filter]. destruct (p x); cbn [negb]; rewrite !len_cons; lia.
Qed.

Lemma len_map {A B} (f : A -> B) (l : list A) : len (map f l) = len l.
Proof. unfold len. now rewrite length_map. Qed.

(** From a fresh object and a supported method: the counters and the
    duration list in terms of the requests that have finished. *)
Lemma loop_accounting net self bs s :
  supported (method self) = true ->
  results self = [] -> successful_requests self = 0 -> failed_requests self = 0 ->
  steps net (boot self bs) s ->
  let F := finished (history s) in
  results (obj s) = map (elapsed_of net) (filter (answered net) F) /\
  successful_requests (obj s) = len (filter (succeeded net) F) /\
  failed_requests (obj s) = len (filter (fun i => negb (succeeded net i)) F) /\
  successful_requests (obj s) + failed_requests (obj s) = len F.
Proof.
  intros Hok Hr Hs Hf Hsteps. cbv zeta.
  destruct (tally_steps net self bs s Hsteps) as (_ & _ & _ & Er & Es & Ef).
  rewrite Hok in Er, Es, Ef. cbn [andb] in Er, Es, Ef.
  rewrite Hr in Er. rewrite Hs in Es. rewrite Hf in Ef. cbn [app] in Er.
  rewrite Z.add_0_l in Es, Ef.
  change (fun i => answered net i) with (answered net) in Er.
  change (fun i => succeeded net i) with (succeeded net) in Es.
  repeat split.
  - exact Er.
  - exact Es.
  - exact Ef.
  - rewrite Es, Ef. apply filter_split_len.
Qed.

(** With an unsupported method nothing is ever recorded. *)
Lemma loop_unsupported net self bs s :
  supported (method self) = false ->
  steps net (boot self bs) s ->
  results (obj s) = results self /\
  successful_requests (obj s) = successful_requests self /\
  failed_requests (obj s) = failed_requests self.
Proof.
  intros Hok Hsteps.
  destruct (tally_steps net self bs s Hsteps) as (_ & _ & _ & Er & Es & Ef).
  rewrite Hok in Er, Es, Ef. cbn [andb] in Er, Es, Ef.
  assert (E : forall l : list Z, filter (fun _ => false) l = []).
  { induction l; [reflexivity | exact IHl]. }
  rewrite E in Er, Es, Ef. cbn in Er, Es, Ef. rewrite app_nil_r in Er.
  repeat split; [exact Er | lia | lia].
Qed.

(** The shape of every execution of [run] once the batches exist. *)
Lemma runs_inv net self r bs :
  batches (py_range2 1 (num_requests self + 1)) (concurrency self) = Ret bs ->
  runs net self r ->
  exists s, steps net (boot self bs) s /\ final s /\
    self_after r = obj s /\
    printed r = banner self ++ console s ++ printed (show_results (obj s)) /\
    result r = result (show_results (obj s)).
Proof.
  intros Hb Hr. unfold runs in Hr. rewrite Hb in Hr.
  destruct Hr as (s & Hs & Hf & ->). exists s.
  cbn [self_after printed result]. rewrite show_results_frame. auto.
Qed.

(** C1 as stated fails: one request, GET, and the call times out.  [run]
    returns with one failure counted and no duration recorded, so
    successes + failures is 1 while the duration list has length 0. *)
Lemma C1_counterexample :
  runs timeouts (init "http://localhost/" "GET" None None 1 1 1) one_timeout_run /\
  result one_timeout_run = Ret tt /\
  successful_requests (self_after one_timeout_run)
    + failed_requests (self_after one_timeout_run) = 1 /\
  len (results (self_after one_timeout_run)) = 0 /\
  successful_requests (self_after one_timeout_run)
    + failed_requests (self_after one_timeout_run)
    <> len (results (self_after one_timeout_run)).
Proof.
  split; [apply run_runs|].
  vm_compute. repeat split; discriminate.
Qed.

(** Whatever the method: successes + failures is the number of recorded
    durations plus the number of finished requests that raised. *)
Lemma loop_balance net self bs s :
  results self = [] -> successful_requests self = 0 -> failed_requests self = 0 ->
  steps net (boot self bs) s ->
  successful_requests (obj s) + failed_requests (obj s)
  = len (results (obj s))
    + len (filter (fun i => supported (method self) && negb (answered net i))
                  (finished (history s))).
Proof.
  intros Hr Hs Hf Hsteps. destruct (supported (method self)) eqn:Hok.
  - destruct (loop_accounting net self bs s Hok Hr Hs Hf Hsteps) as (Er & _ & _ & Et).
    rewrite Et, Er, len_map. cbn [andb].
    symmetry. apply filter_split_len.
  - destruct (loop_unsupported net self bs s Hok Hsteps) as (Er & Es & Ef).
    rewrite Er, Es, Ef, Hr, Hs, Hf. cbn [andb].
    assert (E : forall l : list Z, filter (fun _ => false) l = []).
    { induction l; [reflexivity | exact IHl]. }
    now rewrite E.
Qed.

(** C1 (amended): for N, C >= 1, at every moment of the loop
    successes + failures is the number of recorded durations plus the number
    of completed requests that raised: a request that raises is counted as
    failed and leaves no duration.  With a supported method, after [run],
    successes + failures = N and the duration list has one entry for each
    request that was answered with a status, N less the number that raised.
    [run] does return, for every choice of the event loop. *)
Theorem C1_counts_after_run net url m data hd N C t :
  1 <= N -> 1 <= C ->
  let self := init url m data hd N C t in
  let tasks := py_range2 1 (N + 1) in
  let raised := fun i => supported (upper m) && negb (answered net i) in
  (exists bs, batches tasks C = Ret bs /\
     forall s, steps net (boot self bs) s ->
       successful_requests (obj s) + failed_requests (obj s)
       = len (results (obj s)) + len (filter raised (finished (history s)))) /\
  (forall r, runs net self r ->
     successful_requests (self_after r) + failed_requests (self_after r)
     = len (results (self_after r)) + len (filter raised tasks) /\
     (supported (upper m) = true ->
      successful_requests (self_after r) + failed_requests (self_after r) = N /\
      len (results (self_after r)) = len (filter (answered net) tasks) /\
      len (results (self_after r)) + len (filter raised tasks) = N)) /\
  (forall pick, runs net self (run net pick self)).
Proof.
  intros HN HC self tasks raised.
  destruct (batches_partition tasks C HC) as (bs & Hbs & Hcat & _).
  assert (Hbal : forall s, steps net (boot self bs) s ->
            successful_requests (obj s) + failed_requests (obj s)
            = len (results (obj s)) + len (filter raised (finished (history s)))).
  { intros s Hs. apply (loop_balance net self bs s eq_refl eq_refl eq_refl Hs). }
  split; [exists bs; split; [exact Hbs | exact Hbal]|].
  split; [|intros pick; apply run_runs].
  intros r Hr.
  destruct (runs_inv net self r bs Hbs Hr) as (s & Hs & Hfin & -> & _ & _).
  pose proof (final_finished net self bs s Hs Hfin) as Hperm.
  rewrite Hcat in Hperm.
  assert (HlenF : len (finished (history s)) = N).
  { unfold len. rewrite (Permutation_length Hperm).
    apply (len_py_range2 N). lia. }
  split.
  - rewrite (Hbal s Hs). f_equal. now apply filter_perm_len.
  - intros Hok.
    destruct (loop_accounting net self bs s Hok eq_refl eq_refl eq_refl Hs)
      as (Er & _ & _ & Et).
    assert (El : len (results (obj s)) = len (filter (answered net) tasks)).
    { rewrite Er, len_map. now apply filter_perm_len. }
    split; [now rewrite Et|]. split; [exact El|].
    rewrite El. unfold raised. rewrite Hok. cbn [andb].
    rewrite filter_split_len. apply len_py_range2. lia.
Qed.

Lemma C1_counts_after_run_witness :
  1 <= 5 /\ 1 <= 2 /\
  forall r, runs mixed (init "http://localhost/" "get" None None 5 2 30) r ->
    successful_requests (self_after r) + failed_requests (self_after r)
    = len (results (self_after r)) + 1.
Proof.
  assert (H5 : 1 <= 5) by lia. assert (H2 : 1 <= 2) by lia.
  split; [exact H5|]. split; [exact H2|].
  intros r Hr.
  exact (proj1 (proj1 (proj2
    (C1_counts_after_run mixed "http://localhost/" "get" None None 5 2 30 H5 H2))
    r Hr)).
Defined.

Lemma filter_none {A} (p : A -> bool) (l : list A) :
  (forall x, In x l -> p x = false) -> filter p l = [].
Proof.
  induction l as [|x xs IH]; intros H; [reflexivity|].
  cbn [filter]. rewrite (H x (or_introl eq_refl)).
  apply IH. intros y Hy. apply H. now right.
Qed.

Lemma filter_all {A} (p : A -> bool) (l : list A) :
  (forall x, In x l -> p x = true) -> filter p l = l.
Proof.
  induction l as [|x xs IH]; intros H; [reflexivity|].
  cbn [filter]. rewrite (H x (or_introl eq_refl)). f_equal.
  apply IH. intros y Hy. apply H. now right.
Qed.

Lemma answered_of_succeeded net i : answered net i = false -> succeeded net i = false.
Proof.
  unfold answered, succeeded. destruct (answer_of (net i)); [discriminate | reflexivity].
Qed.

(** C3 as stated fails: four requests in batches of two, every call times
    out after one second.  All four are counted as failed, but no elapsed
    time is recorded, the summary is the "No successful requests" line and no
    requests-per-second line is printed. *)
Lemma C3_counterexample :
  (forall i, answered timeouts i = false) /\
  runs timeouts (init "http://localhost/" "GET" None None 4 2 1) four_timeouts_run /\
  result four_timeouts_run = Ret tt /\
  failed_requests (self_after four_timeouts_run) = 4 /\
  results (self_after four_timeouts_run) = [] /\
  (exists log, printed four_timeouts_run = log ++ [LNoSuccessful]) /\
  (forall q, ~ In (LRequestsPerSecond q) (printed four_timeouts_run)).
Proof.
  split; [reflexivity|]. split; [apply run_runs|].
  split; [reflexivity|]. split; [reflexivity|]. split; [reflexivity|].
  split.
  - exists (banner (init "http://localhost/" "GET" None None 4 2 1) ++
            [LFailed 1 (1 - 0) (ClientError "timeout");
             LFailed 2 (1 - 0) (ClientError "timeout");
             LFailed 3 (1 - 0) (ClientError "timeout");
             LFailed 4 (1 - 0) (ClientError "timeout")]).
    reflexivity.
  - intros q H. vm_compute in H.
    repeat (destruct H as [H|H]; [discriminate H|]). exact H.
Qed.

(** C3 (amended): when every one of the N requests raises (a timeout, say),
    all N are counted as failed and none as successful, no elapsed time is
    recorded, and the summary is the single line "No successful requests to
    analyze." with no requests-per-second.  When every request is instead
    answered with a status outside 200..299 and takes a positive time, all N
    are counted as failed, N durations are recorded with a positive sum, and
    the last line of the report is requests-per-second = 0 / sum = 0. *)
Theorem C3_all_requests_fail net url m data hd N C t :
  1 <= N -> 1 <= C -> supported (upper m) = true ->
  let self := init url m data hd N C t in
  forall r, runs net self r ->
    ((forall i, 1 <= i <= N -> answered net i = false) ->
       failed_requests (self_after r) = N /\
       successful_requests (self_after r) = 0 /\
       results (self_after r) = [] /\
       result r = Ret tt /\
       show_results (self_after r) = mkRun (self_after r) [LNoSuccessful] (Ret tt) /\
       exists log, printed r = log ++ [LNoSuccessful]) /\
    ((forall i, 1 <= i <= N ->
        answered net i = true /\ succeeded net i = false /\ (0 < elapsed_of net i)%Q) ->
       failed_requests (self_after r) = N /\
       successful_requests (self_after r) = 0 /\
       len (results (self_after r)) = N /\
       (0 < py_sum (results (self_after r)))%Q /\
       result r = Ret tt /\
       exists log rps,
         printed r = log ++ [LRequestsPerSecond rps] /\
         rps = (inject_Z 0 / py_sum (results (self_after r)))%Q /\
         (rps == 0)%Q).
Proof.
  intros HN HC Hok self r Hr.
  set (tasks := py_range2 1 (N + 1)).
  destruct (batches_partition tasks C HC) as (bs & Hbs & Hcat & _).
  destruct (runs_inv net self r bs Hbs Hr) as (s & Hs & Hfin & Eself & Eprint & Eres).
  destruct (loop_accounting net self bs s Hok eq_refl eq_refl eq_refl Hs)
    as (Er & Esucc & Efail & _).
  destruct (tally_steps net self bs s Hs) as (_ & Enum & _).
  pose proof (final_finished net self bs s Hs Hfin) as Hperm.
  rewrite Hcat in Hperm.
  assert (Hin : forall i, In i (finished (history s)) -> 1 <= i <= N).
  { intros i Hi. apply (py_range2_In N). eapply Permutation_in; eassumption. }
  assert (HlenF : len (finished (history s)) = N).
  { unfold len. rewrite (Permutation_length Hperm). apply (len_py_range2 N). lia. }
  rewrite Eself, Eprint, Eres. split.
  - intros Hall.
    assert (E0 : results (obj s) = []).
    { rewrite Er, filter_none; [reflexivity|]. intros i Hi. apply Hall, Hin, Hi. }
    rewrite Efail, Esucc, E0.
    rewrite (filter_all (fun i => negb (succeeded net i))).
    2:{ intros i Hi. rewrite answered_of_succeeded; [reflexivity|]. apply Hall, Hin, Hi. }
    rewrite (filter_none (succeeded net)).
    2:{ intros i Hi. apply answered_of_succeeded, Hall, Hin, Hi. }
    rewrite (show_results_empty _ E0). cbn [result printed].
    repeat split; try assumption; try reflexivity.
    exists (banner self ++ console s). now rewrite app_assoc.
  - intros Hall.
    assert (E1 : results (obj s) = map (elapsed_of net) (finished (history s))).
    { rewrite Er, filter_all; [reflexivity|]. intros i Hi. apply Hall, Hin, Hi. }
    assert (Elen : len (results (obj s)) = N) by (rewrite E1, len_map; exact HlenF).
    assert (Hne : results (obj s) <> []).
    { intros E. rewrite E in Elen. unfold len in Elen. simpl in Elen. lia. }
    assert (Hpos : Forall (fun y => (0 < y)%Q) (results (obj s))).
    { rewrite E1. apply Forall_forall. intros y Hy.
      apply in_map_iff in Hy as (i & <- & Hi). apply Hall, Hin, Hi. }
    assert (Hsum : (0 < py_sum (results (obj s)))%Q).
    { destruct (results (obj s)) as [|y ys] eqn:E; [congruence|].
      inversion Hpos as [|? ? Hy Hys]; subst.
      apply Qlt_le_trans with y; [exact Hy|].
      apply py_sum_ge_each; [|now left].
      eapply Forall_impl; [|exact Hpos]. intros a Ha. now apply Qlt_le_weak. }
    assert (Es0 : successful_requests (obj s) = 0).
    { rewrite Esucc, filter_none; [reflexivity|]. intros i Hi. apply Hall, Hin, Hi. }
    assert (Ef0 : failed_requests (obj s) = N).
    { rewrite Efail, filter_all; [exact HlenF|].
      intros i Hi. destruct (Hall i (Hin i Hi)) as (_ & -> & _). reflexivity. }
    assert (Hn0 : num_requests (obj s) <> 0).
    { rewrite Enum. cbn. lia. }
    assert (Hs0 : ~ (py_sum (results (obj s)) == 0)%Q).
    { intros E. rewrite E in Hsum. discriminate Hsum. }
    destruct (show_results_report (obj s) Hne Hn0 Hs0)
      as (avg & mn & mx & md & _ & _ & _ & _ & ->).
    cbn [result printed].
    repeat split; try assumption.
    exists (banner self ++ console s ++ removelast (report (obj s) avg mn mx md)),
           (inject_Z 0 / py_sum (results (obj s)))%Q.
    split; [|split; [reflexivity|]].
    + unfold report. rewrite Es0. cbn [removelast].
      rewrite <- !app_assoc. reflexivity.
    + unfold Qdiv. rewrite Qmult_0_l. reflexivity.
Qed.

Lemma C3_all_requests_fail_witness :
  1 <= 4 /\ 1 <= 2 /\ supported (upper "GET") = true /\
  (forall i, 1 <= i <= 4 -> answered timeouts i = false) /\
  failed_requests (self_after four_timeouts_run) = 4 /\
  results (self_after four_timeouts_run) = [] /\
  show_results (self_after four_timeouts_run)
    = mkRun (self_after four_timeouts_run) [LNoSuccessful] (Ret tt).
Proof.
  assert (H4 : 1 <= 4) by lia. assert (H2 : 1 <= 2) by lia.
  assert (Hok : supported (upper "GET") = true) by reflexivity.
  assert (Hall : forall i, 1 <= i <= 4 -> answered timeouts i = false)
    by (intros i _; reflexivity).
  split; [exact H4|]. split; [exact H2|]. split; [exact Hok|]. split; [exact Hall|].
  pose proof (proj1 (C3_all_requests_fail timeouts "http://localhost/" "GET" None None
                       4 2 1 H4 H2 Hok four_timeouts_run
                       (run_runs timeouts fifo _)) Hall)
    as (Hf & _ & Hr & _ & Hshow & _).
  split; [exact Hf|]. split; [exact Hr | exact Hshow].
Defined.

(** C9: for N, C >= 1 the request indices 1..N are cut, in order, into
    batches of C with only the last one possibly shorter (and never empty);
    in every execution, whenever a request of a later batch starts, every
    request of every earlier batch has already finished, and at every moment
    the accumulators hold exactly the outcomes of the finished requests.
    When the loop is over each index has finished exactly once. *)
Theorem C9_batches_in_sequence net url m data hd N C t :
  1 <= N -> 1 <= C ->
  let self := init url m data hd N C t in
  let tasks := py_range2 1 (N + 1) in
  tasks = map (fun k => 1 + Z.of_nat k) (seq 0 (Z.to_nat N)) /\
  exists bs,
    batches tasks C = Ret bs /\
    List.concat bs = tasks /\
    Forall (fun b => 1 <= len b <= C) bs /\
    (forall k, (S k < List.length bs)%nat -> len (nth k bs []) = C) /\
    len bs = (N + C - 1) / C /\
    forall s, steps net (boot self bs) s ->
      (forall j k i i' h1 h2,
         (j < k)%nat -> In i (nth j bs []) -> In i' (nth k bs []) ->
         history s = h1 ++ Start i' :: h2 -> In (Finish i) h1) /\
      tally net self s /\
      (final s -> Permutation (finished (history s)) tasks).
Proof.
  intros HN HC self tasks.
  split; [apply py_range2_seq|].
  destruct (batches_partition tasks C HC) as (bs & Hbs & Hcat & Hall & Hfull & Hcount).
  exists bs. split; [exact Hbs|]. split; [exact Hcat|].
  split; [exact Hall|]. split; [exact Hfull|]. split.
  - rewrite Hcount. unfold tasks. rewrite len_py_range2 by lia. reflexivity.
  - intros s Hs. split; [|split].
    + apply (steps_batch_order net self bs); [|exact Hs].
      rewrite Hcat. apply py_range2_NoDup.
    + now apply tally_steps with (bs := bs).
    + intros Hfin. rewrite <- Hcat. eapply final_finished; eassumption.
Qed.

Lemma C9_batches_in_sequence_witness :
  1 <= 4 /\ 1 <= 2 /\
  exists bs,
    batches (py_range2 1 (4 + 1)) 2 = Ret bs /\ bs = [[1; 2]; [3; 4]] /\
    forall s, steps mixed (boot (init "http://localhost/" "get" None None 4 2 30) bs) s ->
      forall h1 h2, history s = h1 ++ Start 3 :: h2 ->
        In (Finish 1) h1 /\ In (Finish 2) h1.
Proof.
  assert (H4 : 1 <= 4) by lia. assert (H2 : 1 <= 2) by lia.
  split; [exact H4|]. split; [exact H2|].
  destruct (C9_batches_in_sequence mixed "http://localhost/" "get" None None 4 2 30 H4 H2)
    as (_ & bs & Hbs & _ & _ & _ & _ & Hseq).
  exists bs. split; [exact Hbs|].
  assert (E : bs = [[1; 2]; [3; 4]]).
  { vm_compute in Hbs. now injection Hbs. }
  split; [exact E|].
  intros s Hs h1 h2 Hh. destruct (Hseq s Hs) as (Hord & _).
  split.
  - apply (Hord 0%nat 1%nat 1 3 h1 h2); [lia | | | exact Hh]; rewrite E; simpl; auto.
  - apply (Hord 0%nat 1%nat 2 3 h1 h2); [lia | | | exact Hh]; rewrite E; simpl; auto.
Defined.

(** * Further properties of the code *)

(** ** One request *)

Lemma make_request_printed net i self :
  printed (make_request net i self) = [log_line net (method self) i].
Proof.
  unfold log_line. destruct (supported (method self)) eqn:Hs.
  - destruct (answer_of (net i)) as [code|e] eqn:Ha.
    + now rewrite (make_request_status net i self code Hs Ha).
    + now rewrite (make_request_raises net i self e Hs Ha).
  - now rewrite (make_request_unsupported net i self Hs).
Qed.


(** ** More invariants of the event loop *)

Lemma started_app h1 h2 : started (h1 ++ h2) = started h1 ++ started h2.
Proof. unfold started. apply flat_map_app. Qed.

Lemma started_In h i : In i (started h) <-> In (Start i) h.
Proof.
  unfold started. rewrite in_flat_map. split.
  - intros (e & He & Hi). destruct e as [j|j]; simpl in Hi; [|contradiction].
    destruct Hi as [<-|[]]. exact He.
  - intros H. exists (Start i). split; [exact H | now left].
Qed.

Section MoreLoop.

Variable net : network.
Variable self0 : APIStressTest.
Variable bs : list (list Z).

(** One line per finished request, in the order of completion. *)
Lemma console_steps s :
  steps net (boot self0 bs) s ->
  console s = map (log_line net (method self0)) (finished (history s)).
Proof.
  induction 1 as [|t u Hst IH Hstep]; [reflexivity|].
  destruct Hstep as [t b q _ _ _ | t i rest _ | t k i _].
  - exact IH.
  - unfold start_next. cbn [console history].
    rewrite finished_app. cbn [finished flat_map]. now rewrite app_nil_r.
  - unfold finish_at. cbn [console history].
    rewrite finished_app, map_app, IH, make_request_printed.
    destruct (tally_steps net self0 bs t Hst) as (-> & _).
    reflexivity.
Qed.

(** With an unsupported method the object is never touched. *)
Lemma unsupported_steps s :
  supported (method self0) = false ->
  steps net (boot self0 bs) s -> obj s = self0.
Proof.
  intros Hno. induction 1 as [|t u Hst IH Hstep]; [reflexivity|].
  destruct Hstep as [t b q _ _ _ | t i rest _ | t k i _]; try exact IH.
  unfold finish_at. cbn [obj].
  rewrite make_request_unsupported by (rewrite IH; exact Hno). exact IH.
Qed.

(** What has started is what has finished or is in flight. *)
Lemma started_census s :
  steps net (boot self0 bs) s ->
  Permutation (started (history s)) (finished (history s) ++ inflight s).
Proof.
  induction 1 as [|t u Hst IH Hstep]; [apply Permutation_refl|].
  destruct Hstep as [t b q _ _ _ | t i rest _ | t k i Hk].
  - exact IH.
  - unfold start_next. cbn [history inflight].
    rewrite started_app, finished_app. cbn [started finished flat_map].
    rewrite !app_nil_r, app_assoc. now apply Permutation_app_tail.
  - unfold finish_at. cbn [history inflight].
    rewrite started_app, finished_app. cbn [started finished flat_map].
    rewrite !app_nil_r. eapply perm_trans; [exact IH|].
    rewrite <- app_assoc. apply Permutation_app_head. cbn [app].
    apply Permutation_sym. now apply remove_nth_perm.
Qed.

(** A request finishes only after it has started. *)
Lemma start_before_finish s :
  steps net (boot self0 bs) s ->
  (forall i, In i (inflight s) -> In (Start i) (history s)) /\
  (forall h1 h2 i, history s = h1 ++ Finish i :: h2 -> In (Start i) h1).
Proof.
  induction 1 as [|t u Hst (IHa & IHb) Hstep].
  - split; [intros i [] | intros h1 h2 i H; destruct h1; discriminate].
  - destruct Hstep as [t b q _ _ _ | t i rest _ | t k i Hk].
    + split; assumption.
    + unfold start_next. cbn [history inflight]. split.
      * intros j Hj. apply in_or_app.
        apply in_app_or in Hj as [Hj|[<-|[]]]; [left; now apply IHa | right; now left].
      * intros h1 h2 j Hh.
        apply snoc_split in Hh as [(_ & _ & E) | (h2' & _ & Hh)]; [discriminate|].
        eapply IHb; eassumption.
    + unfold finish_at. cbn [history inflight]. split.
      * intros j Hj. apply in_or_app. left. apply IHa.
        eapply In_remove_nth; eassumption.
      * intros h1 h2 j Hh.
        apply snoc_split in Hh as [(_ & <- & E) | (h2' & _ & Hh)].
        -- injection E as <-. apply IHa. eapply nth_error_In; eassumption.
        -- eapply IHb; eassumption.
Qed.

Hypothesis bs_NoDup : NoDup (List.concat bs).

Lemma NoDup_places s :
  steps net (boot self0 bs) s ->
  NoDup (finished (history s) ++ inflight s ++ created s ++ List.concat (queue s)).
Proof.
  intros Hs. pose proof (census_steps net self0 bs s Hs) as Hc.
  unfold census in Hc.
  eapply Permutation_NoDup; [apply Permutation_sym; exact Hc | exact bs_NoDup].
Qed.

Lemma NoDup_finished s :
  steps net (boot self0 bs) s -> NoDup (finished (history s)).
Proof.
  intros Hs. eapply NoDup_app_remove_r. apply (NoDup_places s Hs).
Qed.

Lemma NoDup_started s :
  steps net (boot self0 bs) s -> NoDup (started (history s)).
Proof.
  intros Hs. pose proof (NoDup_places s Hs) as Hn.
  rewrite app_assoc in Hn. apply NoDup_app_remove_r in Hn.
  eapply Permutation_NoDup; [apply Permutation_sym, started_census; exact Hs | exact Hn].
Qed.

(** Never more tasks alive than the largest batch allows. *)
Lemma alive_bound (c : Z) s :
  0 <= c -> Forall (fun b => len b <= c) bs ->
  steps net (boot self0 bs) s ->
  len (created s ++ inflight s) <= c.
Proof.
  intros Hc Hall Hs.
  destruct (created s ++ inflight s) as [|x xs] eqn:E; [unfold len; simpl; lia|].
  rewrite <- E.
  destruct (at_batch_steps net self0 bs bs_NoDup s Hs) as (k & _ & _ & _ & Hact & _).
  destruct (Hact x) as (k' & -> & Hx); [rewrite E; now left|].
  assert (Hincl : incl (created s ++ inflight s) (nth k' bs [])).
  { intros y Hy. destruct (Hact y Hy) as (k'' & E' & Hy').
    injection E' as <-. exact Hy'. }
  assert (Hnd : NoDup (created s ++ inflight s)).
  { pose proof (NoDup_places s Hs) as Hn. apply NoDup_app_remove_l in Hn.
    rewrite app_assoc in Hn. apply NoDup_app_remove_r in Hn.
    eapply Permutation_NoDup; [apply Permutation_app_comm | exact Hn]. }
  pose proof (NoDup_incl_length Hnd Hincl) as Hlen.
  assert (Hb : In (nth k' bs []) bs).
  { apply nth_In. destruct (Nat.lt_ge_cases k' (List.length bs)) as [|Hge]; [assumption|].
    rewrite nth_overflow in Hx by exact Hge. contradiction. }
  rewrite Forall_forall in Hall. specialize (Hall _ Hb). unfold len in *. lia.
Qed.

End MoreLoop.

(** ** The order of completion follows the batches *)

Lemma firstn_S_nth {A} (l : list A) (d : A) : forall k,
  (k < List.length l)%nat -> firstn (S k) l = firstn k l ++ [nth k l d].
Proof.
  induction l as [|x xs IH]; intros [|k] Hk; simpl in *; try lia.
  - reflexivity.
  - f_equal. apply IH. lia.
Qed.

Lemma Forall2_snoc {A B} (R : A -> B -> Prop) l1 l2 a b :
  Forall2 R l1 l2 -> R a b -> Forall2 R (l1 ++ [a]) (l2 ++ [b]).
Proof.
  intros H Hab. apply Forall2_app; [exact H | now constructor].
Qed.

Section Grouped.

Variable net : network.
Variable self0 : APIStressTest.
Variable bs : list (list Z).

Lemma grouped_steps s :
  steps net (boot self0 bs) s ->
  (queue s = bs /\ finished (history s) = [] /\ inflight s = [] /\ created s = []) \/
  exists k Fs cur,
    (k < List.length bs)%nat /\
    queue s = skipn (S k) bs /\
    finished (history s) = List.concat Fs ++ cur /\
    Forall2 (@Permutation Z) Fs (firstn k bs) /\
    Permutation (cur ++ inflight s ++ created s) (nth k bs []).
Proof.
  induction 1 as [|t u Hst IH Hstep].
  - left. repeat split.
  - destruct Hstep as [t b q Hcr Hin Hq | t i rest Hcr | t n i Hn].
    + right. destruct IH as [(Eq & EF & _ & _) | (k & Fs & cur & Hk & Eq & EF & HFs & Hp)].
      * rewrite Eq in Hq.
        exists 0%nat, [], []. rewrite Hq. cbn. repeat split.
        -- lia.
        -- exact EF.
        -- constructor.
        -- rewrite Hin. apply Permutation_refl.
      * rewrite Eq in Hq.
        destruct (skipn_cons_nth bs [] (S k) b q Hq) as (Hlt & Hnth & Hskip).
        exists (S k), (Fs ++ [cur]), []. cbn [gather_next queue history inflight created].
        split; [exact Hlt|]. split; [exact (eq_sym Hskip)|]. split; [|split].
        -- rewrite EF, concat_app. cbn. now rewrite !app_nil_r.
        -- rewrite (firstn_S_nth bs [] k Hk). apply Forall2_snoc; [exact HFs|].
           rewrite Hin, Hcr, !app_nil_r in Hp. exact Hp.
        -- rewrite Hin, Hnth. apply Permutation_refl.
    + destruct IH as [(_ & _ & _ & Ec) | (k & Fs & cur & Hk & Eq & EF & HFs & Hp)].
      * rewrite Ec in Hcr. discriminate Hcr.
      * right. exists k, Fs, cur. cbn [start_next queue history inflight created].
        rewrite finished_app. cbn [finished flat_map]. rewrite app_nil_r.
        repeat split; try assumption.
        eapply perm_trans; [|exact Hp]. rewrite Hcr.
        apply Permutation_app_head. rewrite <- app_assoc.
        apply Permutation_app_head. apply Permutation_refl.
    + destruct IH as [(_ & _ & Ei & _) | (k & Fs & cur & Hk & Eq & EF & HFs & Hp)].
      * rewrite Ei in Hn. now destruct n.
      * right. exists k, Fs, (cur ++ [i]).
        cbn [finish_at queue history inflight created].
        rewrite finished_app. cbn [finished flat_map]. rewrite app_nil_r.
        split; [exact Hk|]. split; [exact Eq|]. split; [|split; [exact HFs|]].
        -- rewrite EF. now rewrite app_assoc.
        -- eapply perm_trans; [|exact Hp]. rewrite <- app_assoc.
           apply Permutation_app_head. cbn [app].
           apply (Permutation_app_tail _ (remove_nth_perm _ n i Hn)).
Qed.

(** When the loop is over, the completion order is the batches one after
    the other, each in some order of its own. *)
Lemma grouped_final s :
  steps net (boot self0 bs) s -> final s ->
  exists Fs, finished (history s) = List.concat Fs /\ Forall2 (@Permutation Z) Fs bs.
Proof.
  intros Hs (Hq & Hc & Hi).
  destruct (grouped_steps s Hs) as [(Eq & EF & _ & _) | (k & Fs & cur & Hk & Eq & EF & HFs & Hp)].
  - exists []. rewrite EF. split; [reflexivity|]. rewrite <- Eq, Hq. constructor.
  - exists (Fs ++ [cur]). split.
    + rewrite EF, concat_app. cbn. now rewrite !app_nil_r.
    + rewrite Hq in Eq.
      assert (Hlen : S k = List.length bs).
      { assert (List.length (skipn (S k) bs) = 0%nat) by now rewrite <- Eq.
        rewrite length_skipn in H. lia. }
      rewrite <- (firstn_all bs), <- Hlen, (firstn_S_nth bs [] k Hk).
      apply Forall2_snoc; [exact HFs|].
      rewrite Hi, Hc, !app_nil_r in Hp. exact Hp.
Qed.

End Grouped.

(** ** After [run] *)

Lemma init_fresh url m data hd N C t :
  let self := init url m data hd N C t in
  method self = upper m /\ num_requests self = N /\ concurrency self = C /\
  results self = [] /\ successful_requests self = 0 /\ failed_requests self = 0.
Proof. cbv zeta. repeat split. Qed.

(** The final state of an execution of [run] with a positive batch size. *)
Lemma runs_final net url m data hd N C t r :
  1 <= C ->
  runs net (init url m data hd N C t) r ->
  exists bs s,
    batches (py_range2 1 (N + 1)) C = Ret bs /\
    List.concat bs = py_range2 1 (N + 1) /\
    steps net (boot (init url m data hd N C t) bs) s /\ final s /\
    Permutation (finished (history s)) (py_range2 1 (N + 1)) /\
    self_after r = obj s /\
    printed r = banner (init url m data hd N C t) ++ console s
                ++ printed (show_results (obj s)) /\
    result r = result (show_results (obj s)).
Proof.
  intros HC Hr.
  destruct (batches_partition (py_range2 1 (N + 1)) C HC) as (bs & Hbs & Hcat & _).
  destruct (runs_inv net (init url m data hd N C t) r bs Hbs Hr)
    as (s & Hs & Hfin & E1 & E2 & E3).
  exists bs, s.
  split; [exact Hbs|]. split; [exact Hcat|]. split; [exact Hs|]. split; [exact Hfin|].
  split; [|split; [exact E1 | split; [exact E2 | exact E3]]].
  rewrite <- Hcat. eapply final_finished; eassumption.
Qed.

(** X2: with a supported method, after [run] the success counter is the
    number of requests among 1..N that were answered with a status in
    200..299, and the failure counter is the number of all the others,
    answered with another status or not answered at all. *)
Theorem X2_classification_by_status net url m data hd N C t :
  1 <= C -> supported (upper m) = true ->
  forall r, runs net (init url m data hd N C t) r ->
    successful_requests (self_after r)
      = len (filter (succeeded net) (py_range2 1 (N + 1))) /\
    failed_requests (self_after r)
      = len (filter (fun i => negb (succeeded net i)) (py_range2 1 (N + 1))).
Proof.
  intros HC Hok r Hr.
  destruct (runs_final net url m data hd N C t r HC Hr)
    as (bs & s & _ & _ & Hs & _ & Hperm & -> & _ & _).
  destruct (loop_accounting net (init url m data hd N C t) bs s Hok eq_refl eq_refl eq_refl Hs)
    as (_ & Es & Ef & _).
  rewrite Es, Ef. split; now apply filter_perm_len.
Qed.

Lemma X2_classification_by_status_witness :
  1 <= 2 /\ supported (upper "get") = true /\
  forall r, runs mixed (init "http://localhost/" "get" None None 5 2 30) r ->
    successful_requests (self_after r) = 3 /\ failed_requests (self_after r) = 2.
Proof.
  assert (H2 : 1 <= 2) by lia.
  assert (Hok : supported (upper "get") = true) by reflexivity.
  split; [exact H2|]. split; [exact Hok|].
  exact (X2_classification_by_status mixed "http://localhost/" "get" None None 5 2 30
           H2 Hok).
Defined.

(** X3: every execution of [run] completes batch by batch.  There are lists
    F1, F2, ..., one per batch and each a rearrangement of its batch, such
    that what is printed is the banner, then one line per request in the
    order F1 F2 ..., then the summary of the object [run] leaves; with a
    supported method the duration list is, in that same order, the elapsed
    times of the requests that were answered with a status. *)
Theorem X3_completion_order net url m data hd N C t :
  1 <= C ->
  forall r, runs net (init url m data hd N C t) r ->
    exists bs Fs,
      batches (py_range2 1 (N + 1)) C = Ret bs /\
      Forall2 (@Permutation Z) Fs bs /\
      printed r = banner (init url m data hd N C t)
                  ++ map (log_line net (upper m)) (List.concat Fs)
                  ++ printed (show_results (self_after r)) /\
      (supported (upper m) = true ->
       results (self_after r)
       = map (elapsed_of net) (filter (answered net) (List.concat Fs))).
Proof.
  intros HC r Hr.
  destruct (runs_final net url m data hd N C t r HC Hr)
    as (bs & s & Hbs & _ & Hs & Hfin & _ & E1 & E2 & _).
  destruct (grouped_final net (init url m data hd N C t) bs s Hs Hfin) as (Fs & EF & HFs).
  exists bs, Fs. split; [exact Hbs|]. split; [exact HFs|]. split.
  - rewrite E2, E1, <- EF.
    now rewrite (console_steps net (init url m data hd N C t) bs s Hs).
  - intros Hok. rewrite E1, <- EF.
    now destruct (loop_accounting net (init url m data hd N C t) bs s Hok
                    eq_refl eq_refl eq_refl Hs) as (Er & _).
Qed.

Lemma X3_completion_order_witness :
  1 <= 2 /\
  forall r, runs mixed (init "http://localhost/" "get" None None 5 2 30) r ->
    exists bs Fs,
      batches (py_range2 1 (5 + 1)) 2 = Ret bs /\
      Forall2 (@Permutation Z) Fs bs /\
      printed r = banner (init "http://localhost/" "get" None None 5 2 30)
                  ++ map (log_line mixed "GET") (List.concat Fs)
                  ++ printed (show_results (self_after r)) /\
      (supported "GET" = true ->
       results (self_after r)
       = map (elapsed_of mixed) (filter (answered mixed) (List.concat Fs))).
Proof.
  assert (H2 : 1 <= 2) by lia.
  split; [exact H2|].
  exact (X3_completion_order mixed "http://localhost/" "get" None None 5 2 30 H2).
Defined.

(** X22: with a concurrency of 1 the run is sequential.  Whatever the event
    loop chooses, the log lines come in the order 1, 2, ..., N and, with a
    supported method, the duration list is the elapsed times of the answered
    requests in that order. *)
Theorem X22_concurrency_one_is_sequential net url m data hd N t :
  forall r, runs net (init url m data hd N 1 t) r ->
    printed r = banner (init url m data hd N 1 t)
                ++ map (log_line net (upper m)) (py_range2 1 (N + 1))
                ++ printed (show_results (self_after r)) /\
    (supported (upper m) = true ->
     results (self_after r)
     = map (elapsed_of net) (filter (answered net) (py_range2 1 (N + 1)))).
Proof.
  intros r Hr.
  destruct (runs_final net url m data hd N 1 t r ltac:(lia) Hr)
    as (bs & s & Hbs & Hcat & Hs & Hfin & _ & E1 & E2 & _).
  destruct (grouped_final net (init url m data hd N 1 t) bs s Hs Hfin) as (Fs & EF & HFs).
  destruct (batches_partition (py_range2 1 (N + 1)) 1 ltac:(lia))
    as (bs' & Hbs' & _ & Hall & _).
  rewrite Hbs in Hbs'. injection Hbs' as <-.
  assert (EFs : Fs = bs).
  { clear - HFs Hall. induction HFs as [|F b Fs bs HF _ IH]; [reflexivity|].
    inversion Hall as [|? ? Hb Hbs]; subst. f_equal; [|now apply IH].
    destruct b as [|x [|y b]]; unfold len in Hb; simpl in Hb; try lia.
    now apply Permutation_length_1_inv, Permutation_sym. }
  assert (EF' : finished (history s) = py_range2 1 (N + 1)) by (rewrite EF, EFs; exact Hcat).
  split.
  - rewrite E2, E1.
    now rewrite (console_steps net (init url m data hd N 1 t) bs s Hs), EF'.
  - intros Hok. rewrite E1, <- EF'.
    now destruct (loop_accounting net (init url m data hd N 1 t) bs s Hok
                    eq_refl eq_refl eq_refl Hs) as (Er & _).
Qed.

Lemma X22_concurrency_one_is_sequential_witness :
  runs mixed (init "http://localhost/" "get" None None 5 1 30)
       (run mixed (fun _ => 7%nat) (init "http://localhost/" "get" None None 5 1 30)) /\
  results (self_after (run mixed (fun _ => 7%nat)
                         (init "http://localhost/" "get" None None 5 1 30)))
  = map (elapsed_of mixed) [1; 3; 4; 5].
Proof.
  assert (Hr : runs mixed (init "http://localhost/" "get" None None 5 1 30)
       (run mixed (fun _ => 7%nat) (init "http://localhost/" "get" None None 5 1 30)))
    by apply run_runs.
  split; [exact Hr|].
  exact (proj2 (X22_concurrency_one_is_sequential mixed "http://localhost/" "get"
                  None None 5 30 _ Hr) eq_refl).
Defined.

(** X4: when the clock never runs backwards (each request's end reading is
    not below its start reading), no duration recorded by [run] is
    negative. *)
Theorem X4_durations_nonnegative net url m data hd N C t :
  1 <= C -> (forall i, (start_time (net i) <= end_time (net i))%Q) ->
  forall r, runs net (init url m data hd N C t) r ->
    Forall (fun d => (0 <= d)%Q) (results (self_after r)).
Proof.
  intros HC Hclock r Hr.
  destruct (runs_final net url m data hd N C t r HC Hr)
    as (bs & s & _ & _ & Hs & _ & _ & -> & _ & _).
  destruct (tally_steps net (init url m data hd N C t) bs s Hs) as (_ & _ & _ & Er & _).
  rewrite Er. cbn [results init app]. apply Forall_forall.
  intros d Hd. apply in_map_iff in Hd as (i & <- & _).
  unfold elapsed_of. specialize (Hclock i). lra.
Qed.

Lemma X4_durations_nonnegative_witness :
  1 <= 2 /\ (forall i, (start_time (steady i) <= end_time (steady i))%Q) /\
  Forall (fun d => (0 <= d)%Q)
    (results (self_after (run steady fifo (init "http://localhost/" "get" None None 5 2 30)))).
Proof.
  assert (H2 : 1 <= 2) by lia.
  assert (Hclock : forall i, (start_time (steady i) <= end_time (steady i))%Q)
    by (intros i; discriminate).
  split; [exact H2|]. split; [exact Hclock|].
  apply (X4_durations_nonnegative steady "http://localhost/" "get" None None 5 2 30
           H2 Hclock).
  apply run_runs.
Defined.

Lemma length_py_range2 n : List.length (py_range2 1 (n + 1)) = Z.to_nat n.
Proof. rewrite py_range2_seq, length_map, length_seq. reflexivity. Qed.

(** X5: with a method other than GET, POST, PUT and DELETE, [run] issues no
    request: it prints the banner, N "Unsupported method" lines and the
    "No successful requests" line, returns normally and leaves the object
    exactly as it was constructed. *)
Theorem X5_unsupported_method_skips_everything net url m data hd N C t :
  1 <= C -> supported (upper m) = false ->
  forall r, runs net (init url m data hd N C t) r ->
    self_after r = init url m data hd N C t /\
    result r = Ret tt /\
    printed r = banner (init url m data hd N C t)
                ++ repeat (LUnsupported (upper m)) (Z.to_nat N)
                ++ [LNoSuccessful].
Proof.
  intros HC Hno r Hr.
  destruct (runs_final net url m data hd N C t r HC Hr)
    as (bs & s & _ & _ & Hs & _ & Hperm & E1 & E2 & E3).
  pose proof (unsupported_steps net (init url m data hd N C t) bs s Hno Hs) as Eobj.
  rewrite E1, E2, E3, Eobj.
  rewrite (show_results_empty (init url m data hd N C t) eq_refl).
  cbn [result printed]. split; [reflexivity|]. split; [reflexivity|].
  rewrite (console_steps net (init url m data hd N C t) bs s Hs).
  f_equal. f_equal.
  assert (Elog : forall i, log_line net (method (init url m data hd N C t)) i
                           = LUnsupported (upper m)).
  { intros i. unfold log_line. cbn [method init]. now rewrite Hno. }
  rewrite (map_ext _ _ Elog), map_const.
  now rewrite (Permutation_length Hperm), length_py_range2.
Qed.

Lemma X5_unsupported_method_skips_everything_witness :
  1 <= 2 /\ supported (upper "patch") = false /\
  forall r, runs steady (init "http://localhost/" "patch" None None 3 2 30) r ->
    self_after r = init "http://localhost/" "patch" None None 3 2 30 /\
    result r = Ret tt /\
    printed r = banner (init "http://localhost/" "patch" None None 3 2 30)
                ++ [LUnsupported "PATCH"; LUnsupported "PATCH"; LUnsupported "PATCH";
                    LNoSuccessful].
Proof.
  assert (H2 : 1 <= 2) by lia.
  assert (Hno : supported (upper "patch") = false) by reflexivity.
  split; [exact H2|]. split; [exact Hno|].
  exact (X5_unsupported_method_skips_everything steady "http://localhost/" "patch"
           None None 3 2 30 H2 Hno).
Defined.

(** X6: the concurrency cap.  With batches of size C >= 1, at no moment are
    more than C requests in flight, nor more than C tasks alive (created or
    in flight). *)
Theorem X6_at_most_C_in_flight net self N C bs s :
  1 <= C ->
  batches (py_range2 1 (N + 1)) C = Ret bs ->
  steps net (boot self bs) s ->
  len (inflight s) <= C /\ len (created s ++ inflight s) <= C.
Proof.
  intros HC Hbs Hs.
  destruct (batches_partition (py_range2 1 (N + 1)) C HC)
    as (bs' & Hbs' & Hcat & Hall & _).
  rewrite Hbs in Hbs'. injection Hbs' as <-.
  assert (Hb : len (created s ++ inflight s) <= C).
  { apply (alive_bound net self bs); [| lia | | exact Hs].
    - rewrite Hcat. apply py_range2_NoDup.
    - eapply Forall_impl; [|exact Hall]. intros b Hb. cbv beta in *. lia. }
  split; [|exact Hb]. rewrite len_app in Hb. pose proof (len_nonneg (created s)). lia.
Qed.

Lemma X6_at_most_C_in_flight_witness :
  1 <= 2 /\ batches (py_range2 1 (5 + 1)) 2 = Ret [[1; 2]; [3; 4]; [5]] /\
  forall s, steps mixed (boot fresh [[1; 2]; [3; 4]; [5]]) s -> len (inflight s) <= 2.
Proof.
  assert (H2 : 1 <= 2) by lia.
  assert (Hbs : batches (py_range2 1 (5 + 1)) 2 = Ret [[1; 2]; [3; 4]; [5]])
    by reflexivity.
  split; [exact H2|]. split; [exact Hbs|].
  intros s Hs.
  exact (proj1 (X6_at_most_C_in_flight mixed fresh 5 2 _ s H2 Hbs Hs)).
Defined.

(** X7: no request is executed twice.  In every history of the loop each
    index starts at most once and finishes at most once, finishes only after
    it has started, and only indices 1..N ever start. *)
Theorem X7_each_request_at_most_once net self N C bs s :
  1 <= C ->
  batches (py_range2 1 (N + 1)) C = Ret bs ->
  steps net (boot self bs) s ->
  NoDup (started (history s)) /\
  NoDup (finished (history s)) /\
  (forall h1 h2 i, history s = h1 ++ Finish i :: h2 -> In (Start i) h1) /\
  (forall i, In (Start i) (history s) -> 1 <= i <= N).
Proof.
  intros HC Hbs Hs.
  destruct (batches_partition (py_range2 1 (N + 1)) C HC)
    as (bs' & Hbs' & Hcat & _).
  rewrite Hbs in Hbs'. injection Hbs' as <-.
  assert (Hnd : NoDup (List.concat bs)) by (rewrite Hcat; apply py_range2_NoDup).
  split; [now apply (NoDup_started net self bs)|].
  split; [now apply (NoDup_finished net self bs)|].
  split; [apply (start_before_finish net self bs s Hs)|].
  intros i Hi. apply (py_range2_In N). rewrite <- Hcat.
  apply started_In in Hi.
  apply (Permutation_in _ (started_census net self bs s Hs)) in Hi.
  apply (Permutation_in _ (census_steps net self bs s Hs)).
  rewrite app_assoc. apply in_or_app. now left.
Qed.

Lemma X7_each_request_at_most_once_witness :
  1 <= 2 /\ batches (py_range2 1 (5 + 1)) 2 = Ret [[1; 2]; [3; 4]; [5]] /\
  forall s, steps mixed (boot fresh [[1; 2]; [3; 4]; [5]]) s ->
    NoDup (started (history s)) /\ NoDup (finished (history s)).
Proof.
  assert (H2 : 1 <= 2) by lia.
  assert (Hbs : batches (py_range2 1 (5 + 1)) 2 = Ret [[1; 2]; [3; 4]; [5]])
    by reflexivity.
  split; [exact H2|]. split; [exact Hbs|].
  intros s Hs.
  destruct (X7_each_request_at_most_once mixed fresh 5 2 _ s H2 Hbs Hs) as (H1 & H3 & _).
  split; assumption.
Defined.

(** ** Degenerate configurations *)

Lemma range_from_backwards fuel i stop step :
  step < 0 -> i <= stop -> range_from fuel i stop step = [].
Proof.
  intros Hs Hi. destruct fuel; [reflexivity|]. simpl.
  destruct (0 <? step) eqn:E1; [apply Z.ltb_lt in E1; lia|].
  destruct (step <? 0) eqn:E3; [|apply Z.ltb_ge in E3; lia].
  destruct (stop <? i) eqn:E2; [apply Z.ltb_lt in E2; lia|]. reflexivity.
Qed.

Lemma py_range2_empty n : n <= 0 -> py_range2 1 (n + 1) = [].
Proof.
  intros H. rewrite py_range2_seq.
  replace (Z.to_nat n) with 0%nat by lia. reflexivity.
Qed.

Lemma batches_zero_step tasks : batches tasks 0 = Raise ValueError.
Proof. reflexivity. Qed.

Lemma batches_negative_step tasks c : c < 0 -> batches tasks c = Ret [].
Proof.
  intros Hc. unfold batches, py_range.
  destruct (c =? 0) eqn:E; [apply Z.eqb_eq in E; lia|].
  rewrite range_from_backwards; [reflexivity | exact Hc | apply len_nonneg].
Qed.

Lemma batches_no_tasks c : c <> 0 -> batches [] c = Ret [].
Proof.
  intros Hc. unfold batches, py_range.
  destruct (c =? 0) eqn:E; [apply Z.eqb_eq in E; lia|]. reflexivity.
Qed.

(** With no batch to hand out the loop cannot move. *)
Lemma steps_no_batches net self s :
  steps net (boot self []) s -> s = boot self [].
Proof.
  induction 1 as [|t u _ IH Hstep]; [reflexivity|].
  subst t. inversion Hstep as [? b q _ _ Hq | ? i rest Hc | ? k i Hk]; subst.
  - discriminate Hq.
  - discriminate Hc.
  - cbn in Hk. now destruct k.
Qed.

Lemma runs_zero_concurrency net self r :
  concurrency self = 0 -> runs net self r ->
  r = mkRun self (banner self) (Raise ValueError).
Proof.
  intros HC Hr. unfold runs in Hr. rewrite HC, batches_zero_step in Hr. exact Hr.
Qed.

Lemma runs_nothing net self r :
  concurrency self < 0 \/ (num_requests self <= 0 /\ concurrency self <> 0) ->
  results self = [] ->
  runs net self r ->
  r = mkRun self (banner self ++ [LNoSuccessful]) (Ret tt).
Proof.
  intros Hcfg Hres Hr. unfold runs in Hr.
  assert (Hbs : batches (py_range2 1 (num_requests self + 1)) (concurrency self) = Ret []).
  { destruct Hcfg as [Hc | [Hn Hc]].
    - now apply batches_negative_step.
    - rewrite py_range2_empty by exact Hn. now apply batches_no_tasks. }
  rewrite Hbs in Hr. destruct Hr as (s & Hs & _ & ->).
  apply steps_no_batches in Hs. subst s. cbn [obj console boot].
  now rewrite (show_results_empty self Hres).
Qed.

(** X8: a concurrency of 0 stops [run] before the first request: the banner
    is printed, [range(0, N, 0)] raises [ValueError], nothing is recorded
    and no summary is printed, whatever N is. *)
Theorem X8_zero_concurrency_raises net self r :
  concurrency self = 0 ->
  runs net self r ->
  r = mkRun self (banner self) (Raise ValueError) /\
  self_after r = self /\ ~ In LNoSuccessful (printed r) /\ ~ In LHeader (printed r).
Proof.
  intros HC Hr. rewrite (runs_zero_concurrency net self r HC Hr).
  split; [reflexivity|]. split; [reflexivity|].
  split; intros H; simpl in H;
    repeat (destruct H as [H|H]; [discriminate H|]); exact H.
Qed.

Lemma X8_zero_concurrency_raises_witness :
  concurrency (init "http://localhost/" "GET" None None 5 0 30) = 0 /\
  run steady fifo (init "http://localhost/" "GET" None None 5 0 30)
  = mkRun (init "http://localhost/" "GET" None None 5 0 30)
          (banner (init "http://localhost/" "GET" None None 5 0 30))
          (Raise ValueError).
Proof.
  split; [reflexivity|].
  apply (X8_zero_concurrency_raises steady); [reflexivity | apply run_runs].
Defined.

(** X9: with a negative concurrency, or with no request to make (N <= 0)
    and a non-zero concurrency, [run] makes no request at all: on a fresh
    object it prints the banner and "No successful requests to analyze.",
    returns normally and leaves the object untouched. *)
Theorem X9_nothing_to_run net self r :
  concurrency self < 0 \/ (num_requests self <= 0 /\ concurrency self <> 0) ->
  results self = [] ->
  runs net self r ->
  r = mkRun self (banner self ++ [LNoSuccessful]) (Ret tt).
Proof. apply runs_nothing. Qed.

Lemma X9_nothing_to_run_witness :
  (concurrency (init "http://localhost/" "GET" None None 5 (-1) 30) < 0 \/
   (num_requests (init "http://localhost/" "GET" None None 5 (-1) 30) <= 0 /\
    concurrency (init "http://localhost/" "GET" None None 5 (-1) 30) <> 0)) /\
  run steady fifo (init "http://localhost/" "GET" None None 5 (-1) 30)
  = mkRun (init "http://localhost/" "GET" None None 5 (-1) 30)
          (banner (init "http://localhost/" "GET" None None 5 (-1) 30) ++ [LNoSuccessful])
          (Ret tt).
Proof.
  assert (H : concurrency (init "http://localhost/" "GET" None None 5 (-1) 30) < 0 \/
   (num_requests (init "http://localhost/" "GET" None None 5 (-1) 30) <= 0 /\
    concurrency (init "http://localhost/" "GET" None None 5 (-1) 30) <> 0))
    by (left; reflexivity).
  split; [exact H|].
  apply (X9_nothing_to_run steady); [exact H | reflexivity | apply run_runs].
Defined.

(** X10: when the concurrency is at least the number of requests, all N
    requests form a single batch. *)
Theorem X10_single_batch N C :
  1 <= N -> N <= C ->
  batches (py_range2 1 (N + 1)) C = Ret [py_range2 1 (N + 1)].
Proof.
  intros HN HC.
  destruct (batches_partition (py_range2 1 (N + 1)) C ltac:(lia))
    as (bs & Hbs & Hcat & _ & _ & Hcount).
  rewrite Hbs. f_equal.
  rewrite len_py_range2 in Hcount by lia.
  assert (H1 : (N + C - 1) / C = 1).
  { symmetry. apply Z.div_unique with (r := N - 1); lia. }
  rewrite H1 in Hcount. unfold len in Hcount.
  destruct bs as [|b [|b' bs]]; simpl in Hcount; try lia.
  simpl in Hcat. rewrite app_nil_r in Hcat. now subst b.
Qed.

Lemma X10_single_batch_witness :
  1 <= 3 /\ 3 <= 32 /\ batches (py_range2 1 (3 + 1)) 32 = Ret [[1; 2; 3]].
Proof.
  assert (H1 : 1 <= 3) by lia. assert (H2 : 3 <= 32) by lia.
  split; [exact H1|]. split; [exact H2|].
  exact (X10_single_batch 3 32 H1 H2).
Defined.

(** ** When [run] raises and when it does not *)

Lemma py_sum_positive l :
  l <> [] -> Forall (fun d => (0 < d)%Q) l -> (0 < py_sum l)%Q.
Proof.
  intros Hne Hpos. destruct l as [|y ys]; [congruence|].
  inversion Hpos as [|? ? Hy Hys]; subst.
  apply Qlt_le_trans with y; [exact Hy|].
  apply py_sum_ge_each; [|now left].
  eapply Forall_impl; [|exact Hpos]. intros a Ha. now apply Qlt_le_weak.
Qed.

(** After the loop a non-empty duration list means N >= 1. *)
Lemma recorded_means_requested net url m data hd N C t bs s :
  List.concat bs = py_range2 1 (N + 1) ->
  steps net (boot (init url m data hd N C t) bs) s ->
  results (obj s) <> [] -> 1 <= N.
Proof.
  intros Hcat Hs Hne.
  destruct (tally_steps net (init url m data hd N C t) bs s Hs) as (_ & _ & _ & Er & _).
  cbn [results init app] in Er.
  destruct (filter (fun i => supported (method (init url m data hd N C t)) && answered net i)
                   (finished (history s))) as [|i l] eqn:E.
  - rewrite Er in Hne. now contradiction Hne.
  - assert (Hi : In i (finished (history s))).
    { eapply proj1. apply filter_In. rewrite E. now left. }
    pose proof (census_steps net (init url m data hd N C t) bs s Hs) as Hc.
    unfold census in Hc. rewrite Hcat in Hc.
    assert (Hin : In i (py_range2 1 (N + 1))).
    { eapply Permutation_in; [exact Hc|]. apply in_or_app. now left. }
    apply py_range2_In in Hin. lia.
Qed.

(** X11: the only two ways [run] can end with an exception.  Either the
    concurrency is 0 and it is the [ValueError] of [range]; or some duration
    was recorded, the durations add up to zero, and it is the
    [ZeroDivisionError] of the requests-per-second division.  In particular
    the success-rate division never fails in a run. *)
Theorem X11_only_two_failures net url m data hd N C t r e :
  runs net (init url m data hd N C t) r ->
  result r = Raise e ->
  (C = 0 /\ e = ValueError) \/
  (C <> 0 /\ e = ZeroDivisionError /\ results (self_after r) <> [] /\
   (py_sum (results (self_after r)) == 0)%Q).
Proof.
  intros Hr He.
  destruct (Z.eq_dec C 0) as [HC0|HC0].
  - left. split; [exact HC0|].
    rewrite (runs_zero_concurrency net (init url m data hd N C t) r HC0 Hr) in He.
    now injection He.
  - right. split; [exact HC0|].
    destruct (Z_lt_le_dec C 0) as [Hneg|Hpos].
    + rewrite (runs_nothing net (init url m data hd N C t) r (or_introl Hneg) eq_refl Hr) in He.
      discriminate He.
    + destruct (runs_final net url m data hd N C t r ltac:(lia) Hr)
        as (bs & s & _ & Hcat & Hs & _ & _ & E1 & _ & E3).
      rewrite E1. rewrite E3 in He.
      destruct (tally_steps net (init url m data hd N C t) bs s Hs) as (_ & En & _).
      cbn [num_requests init] in En.
      destruct (results (obj s)) as [|x xs] eqn:Eres.
      * rewrite (show_results_empty _ Eres) in He. discriminate He.
      * assert (Hne : results (obj s) <> []) by (rewrite Eres; discriminate).
        pose proof (recorded_means_requested net url m data hd N C t bs s Hcat Hs Hne).
        assert (Hn : num_requests (obj s) <> 0) by lia.
        rewrite <- Eres.
        destruct (Qeq_dec (py_sum (results (obj s))) 0) as [Hz|Hz].
        -- rewrite (show_results_zero_sum _ Hne Hn Hz) in He.
           injection He as <-. now repeat split.
        -- destruct (show_results_report _ Hne Hn Hz)
             as (? & ? & ? & ? & _ & _ & _ & _ & E).
           rewrite E in He. discriminate He.
Qed.

Lemma X11_only_two_failures_witness :
  runs instant (init "http://localhost/" "GET" None None 1 1 30) one_instant_run /\
  result one_instant_run = Raise ZeroDivisionError /\
  ((1 = 0 /\ ZeroDivisionError = ValueError) \/
   (1 <> 0 /\ ZeroDivisionError = ZeroDivisionError /\
    results (self_after one_instant_run) <> [] /\
    (py_sum (results (self_after one_instant_run)) == 0)%Q)).
Proof.
  assert (Hr : runs instant (init "http://localhost/" "GET" None None 1 1 30)
                 one_instant_run) by apply run_runs.
  assert (He : result one_instant_run = Raise ZeroDivisionError)
    by (vm_compute; reflexivity).
  split; [exact Hr|]. split; [exact He|].
  exact (X11_only_two_failures instant "http://localhost/" "GET" None None 1 1 30
           one_instant_run ZeroDivisionError Hr He).
Defined.

(** X12: if the concurrency is not 0 and every request takes a positive
    time (its end reading is above its start reading), [run] returns
    normally, whatever the answers and whatever the order of completion. *)
Theorem X12_run_returns net url m data hd N C t :
  C <> 0 -> (forall i, (start_time (net i) < end_time (net i))%Q) ->
  forall r, runs net (init url m data hd N C t) r -> result r = Ret tt.
Proof.
  intros HC0 Hclock r Hr.
  destruct (Z_lt_le_dec C 0) as [Hneg|Hpos].
  - now rewrite (runs_nothing net (init url m data hd N C t) r (or_introl Hneg) eq_refl Hr).
  - destruct (runs_final net url m data hd N C t r ltac:(lia) Hr)
      as (bs & s & _ & Hcat & Hs & _ & _ & _ & _ & ->).
    destruct (tally_steps net (init url m data hd N C t) bs s Hs)
      as (_ & En & _ & Er & _).
    cbn [num_requests init] in En. cbn [results init app] in Er.
    destruct (results (obj s)) as [|x xs] eqn:Eres.
    + now rewrite (show_results_empty _ Eres).
    + assert (Hne : results (obj s) <> []) by (rewrite Eres; discriminate).
      pose proof (recorded_means_requested net url m data hd N C t bs s Hcat Hs Hne).
      assert (Hn : num_requests (obj s) <> 0) by lia.
      assert (Hall : Forall (fun d => (0 < d)%Q) (results (obj s))).
      { rewrite Eres, Er. apply Forall_forall. intros d Hd.
        apply in_map_iff in Hd as (i & <- & _).
        unfold elapsed_of. specialize (Hclock i). lra. }
      pose proof (py_sum_positive _ Hne Hall) as Hsum.
      assert (Hz : ~ (py_sum (results (obj s)) == 0)%Q).
      { intros E. rewrite E in Hsum. discriminate Hsum. }
      destruct (show_results_report _ Hne Hn Hz) as (? & ? & ? & ? & _ & _ & _ & _ & E).
      now rewrite E.
Qed.

Lemma X12_run_returns_witness :
  2 <> 0 /\ (forall i, (start_time (steady i) < end_time (steady i))%Q) /\
  result (run steady fifo (init "http://localhost/" "GET" None None 5 2 30)) = Ret tt.
Proof.
  assert (H2 : 2 <> 0) by discriminate.
  assert (Hclock : forall i, (start_time (steady i) < end_time (steady i))%Q)
    by (intros i; reflexivity).
  split; [exact H2|]. split; [exact Hclock|].
  apply (X12_run_returns steady "http://localhost/" "GET" None None 5 2 30 H2 Hclock).
  apply run_runs.
Defined.

(** ** The figures of the report *)

Lemma show_results_rate_line self q :
  In (LSuccessRate q) (printed (show_results self)) ->
  results self <> [] /\ num_requests self <> 0 /\
  q = (inject_Z (successful_requests self) / inject_Z (num_requests self) * 100)%Q.
Proof.
  intros H.
  destruct (results self) as [|x xs] eqn:Eres.
  { rewrite (show_results_empty _ Eres) in H. simpl in H.
    destruct H as [H|[]]; discriminate H. }
  assert (Hne : results self <> []) by (rewrite Eres; discriminate).
  destruct (Z.eq_dec (num_requests self) 0) as [Hn|Hn].
  { rewrite (show_results_no_requests _ Hne Hn) in H. simpl in H.
    repeat (destruct H as [H|H]; [discriminate H|]). contradiction. }
  split; [discriminate|]. split; [exact Hn|].
  destruct (Qeq_dec (py_sum (results self)) 0) as [Hz|Hz].
  - rewrite (show_results_zero_sum _ Hne Hn Hz) in H. simpl in H.
    repeat (destruct H as [H|H]; try discriminate H); [|contradiction].
    now injection H.
  - destruct (show_results_report _ Hne Hn Hz) as (? & ? & ? & ? & _ & _ & _ & _ & E).
    rewrite E in H. unfold report in H. simpl in H.
    repeat (destruct H as [H|H]; try discriminate H); [|contradiction].
    now injection H.
Qed.

Lemma rate_in_range s n :
  0 <= s <= n -> 1 <= n ->
  (0 <= inject_Z s / inject_Z n * 100 /\ inject_Z s / inject_Z n * 100 <= 100)%Q.
Proof.
  intros Hs Hn.
  assert (Hn' : (0 < inject_Z n)%Q) by (unfold Qlt; simpl; lia).
  assert (Hs0 : (0 <= inject_Z s)%Q) by (unfold Qle; simpl; lia).
  assert (Hsn : (inject_Z s <= inject_Z n)%Q) by (unfold Qle; simpl; lia).
  assert (H0 : (0 <= inject_Z s / inject_Z n)%Q).
  { apply Qle_shift_div_l; [exact Hn'|]. lra. }
  assert (H1 : (inject_Z s / inject_Z n <= 1)%Q).
  { apply Qle_shift_div_r; [exact Hn'|]. lra. }
  split; lra.
Qed.

Lemma filter_len_le {A} (p : A -> bool) (l : list A) : len (filter p l) <= len l.
Proof.
  pose proof (filter_split_len p l).
  pose proof (len_nonneg (filter (fun x => negb (p x)) l)). lia.
Qed.

(** X13: in every execution of [run], for every N and C, a printed success
    rate lies between 0 and 100. *)
Theorem X13_success_rate_is_a_percentage net url m data hd N C t r q :
  runs net (init url m data hd N C t) r ->
  In (LSuccessRate q) (printed r) ->
  (0 <= q /\ q <= 100)%Q.
Proof.
  intros Hr Hq.
  destruct (Z.eq_dec C 0) as [HC0|HC0].
  { rewrite (runs_zero_concurrency net (init url m data hd N C t) r HC0 Hr) in Hq.
    simpl in Hq. repeat (destruct Hq as [Hq|Hq]; [discriminate Hq|]). contradiction. }
  destruct (Z_lt_le_dec C 0) as [Hneg|Hpos].
  { rewrite (runs_nothing net (init url m data hd N C t) r (or_introl Hneg) eq_refl Hr) in Hq.
    simpl in Hq. repeat (destruct Hq as [Hq|Hq]; [discriminate Hq|]). contradiction. }
  destruct (runs_final net url m data hd N C t r ltac:(lia) Hr)
    as (bs & s & _ & Hcat & Hs & _ & Hperm & _ & E2 & _).
  rewrite E2 in Hq.
  apply in_app_or in Hq as [Hq|Hq].
  { simpl in Hq. repeat (destruct Hq as [Hq|Hq]; [discriminate Hq|]). contradiction. }
  apply in_app_or in Hq as [Hq|Hq].
  { rewrite (console_steps net (init url m data hd N C t) bs s Hs) in Hq.
    apply in_map_iff in Hq as (i & Hi & _). unfold log_line in Hi.
    destruct (supported _); [destruct (answer_of (net i))|]; discriminate Hi. }
  apply show_results_rate_line in Hq as (Hne & Hn & ->).
  destruct (tally_steps net (init url m data hd N C t) bs s Hs)
    as (_ & En & _ & _ & Es & _).
  cbn [num_requests successful_requests init] in En, Es.
  pose proof (recorded_means_requested net url m data hd N C t bs s Hcat Hs Hne) as HN.
  rewrite En, Es, Z.add_0_l. apply rate_in_range; [|exact HN].
  split; [apply len_nonneg|].
  eapply Z.le_trans; [apply filter_len_le|].
  unfold len. rewrite (Permutation_length Hperm).
  apply Z.eq_le_incl. apply (len_py_range2 N). lia.
Qed.

Lemma X13_success_rate_is_a_percentage_witness :
  runs mixed (init "http://localhost/" "get" None None 5 2 30)
       (run mixed fifo (init "http://localhost/" "get" None None 5 2 30)) /\
  In (LSuccessRate (300 # 5))
     (printed (run mixed fifo (init "http://localhost/" "get" None None 5 2 30))) /\
  (0 <= 300 # 5 /\ 300 # 5 <= 100)%Q.
Proof.
  assert (Hr : runs mixed (init "http://localhost/" "get" None None 5 2 30)
       (run mixed fifo (init "http://localhost/" "get" None None 5 2 30)))
    by apply run_runs.
  assert (Hq : In (LSuccessRate (300 # 5))
     (printed (run mixed fifo (init "http://localhost/" "get" None None 5 2 30)))).
  { vm_compute. do 16 right. left. reflexivity. }
  split; [exact Hr|]. split; [exact Hq|].
  exact (X13_success_rate_is_a_percentage mixed "http://localhost/" "get" None None
           5 2 30 _ _ Hr Hq).
Defined.

Lemma median_le_sorted_nth l k :
  l <> [] -> len l / 2 <= k < len l ->
  exists md, median l = Ret md /\ (md <= nth (Z.to_nat k) (sorted l) 0)%Q.
Proof.
  intros Hne Hk. pose proof (nonempty_len l Hne) as Hlen.
  assert (Hmono : forall a, 0 <= a <= k ->
            (nth (Z.to_nat a) (sorted l) 0 <= nth (Z.to_nat k) (sorted l) 0)%Q).
  { intros a Ha. apply StronglySorted_nth; [apply sorted_ascending|].
    rewrite sorted_length. unfold len in Hk. lia. }
  unfold median. rewrite len_sorted.
  destruct (len l =? 0) eqn:E0; [apply Z.eqb_eq in E0; lia|].
  assert (H2 : 0 <= len l / 2) by (apply Z.div_pos; lia).
  destruct (len l mod 2 =? 1) eqn:E1.
  - rewrite getitem_in_range by (rewrite len_sorted; lia).
    eexists. split; [reflexivity|]. apply Hmono. lia.
  - apply Z.eqb_neq in E1.
    assert (H1 : 1 <= len l / 2).
    { pose proof (Z.div_mod (len l) 2 ltac:(lia)).
      pose proof (Z.mod_pos_bound (len l) 2 ltac:(lia)). lia. }
    rewrite !getitem_in_range by (rewrite len_sorted; lia).
    eexists. split; [reflexivity|].
    pose proof (Hmono (len l / 2 - 1) ltac:(lia)).
    pose proof (Hmono (len l / 2) ltac:(lia)).
    unfold Qdiv. change (/ 2)%Q with (1 # 2)%Q. lra.
Qed.

(** X14: on a non-empty duration list the figures of the report are in
    order: median <= 95th percentile <= 99th percentile <= max, and
    min <= 95th percentile. *)
Theorem X14_percentiles_in_order (l : list Q) self :
  l <> [] ->
  exists mn md p95 p99 mx,
    py_min l = Ret mn /\ median l = Ret md /\ py_max l = Ret mx /\
    percentiles l self = mkRun self [] (Ret (VFloat p95, VFloat p99)) /\
    (mn <= p95)%Q /\ (md <= p95)%Q /\ (p95 <= p99)%Q /\ (p99 <= mx)%Q.
Proof.
  intros Hne. pose proof (nonempty_len l Hne) as Hlen.
  pose proof (p95_index_bounds l Hne) as H95.
  pose proof (p99_index_bounds l Hne) as H99.
  assert (Hhalf : len l / 2 <= p95_index l).
  { rewrite p95_index_floor. apply Z.div_le_lower_bound; [lia|].
    pose proof (Z.mul_div_le (len l) 2 ltac:(lia)). lia. }
  assert (Hle : p95_index l <= p99_index l).
  { rewrite p95_index_floor, p99_index_floor. apply Z.div_le_mono; lia. }
  destruct (py_min_spec l Hne) as (mn & Hmn & _ & Hlo).
  destruct (py_max_spec l Hne) as (mx & Hmx & _ & Hhi).
  destruct (median_le_sorted_nth l (p95_index l) Hne ltac:(lia)) as (md & Hmd & Hmd95).
  exists mn, md, (nth (Z.to_nat (p95_index l)) (sorted l) 0%Q),
         (nth (Z.to_nat (p99_index l)) (sorted l) 0%Q), mx.
  split; [exact Hmn|]. split; [exact Hmd|]. split; [exact Hmx|].
  split; [now apply percentiles_nonempty|].
  rewrite Forall_forall in Hlo, Hhi.
  split; [|split; [exact Hmd95 | split]].
  - apply Hlo, nth_sorted_In. unfold len in H95. lia.
  - apply StronglySorted_nth; [apply sorted_ascending|].
    rewrite sorted_length. unfold len in H99. lia.
  - apply Hhi, nth_sorted_In. unfold len in H99. lia.
Qed.

Lemma X14_percentiles_in_order_witness :
  results seven_of_ten <> [] /\
  exists mn md p95 p99 mx,
    py_min (results seven_of_ten) = Ret mn /\ median (results seven_of_ten) = Ret md /\
    py_max (results seven_of_ten) = Ret mx /\
    percentiles (results seven_of_ten) seven_of_ten
      = mkRun seven_of_ten [] (Ret (VFloat p95, VFloat p99)) /\
    (mn <= p95)%Q /\ (md <= p95)%Q /\ (p95 <= p99)%Q /\ (p99 <= mx)%Q.
Proof.
  assert (Hne : results seven_of_ten <> []) by discriminate.
  split; [exact Hne|].
  exact (X14_percentiles_in_order (results seven_of_ten) seven_of_ten Hne).
Defined.

Lemma fold_sum_bounds lo hi l : forall a,
  Forall (fun y => (lo <= y /\ y <= hi)%Q) l ->
  (a + inject_Z (len l) * lo <= fold_left Qplus l a /\
   fold_left Qplus l a <= a + inject_Z (len l) * hi)%Q.
Proof.
  induction l as [|x xs IH]; intros a Hall.
  - cbn [fold_left]. change (len (@nil Q)) with 0. change (inject_Z 0) with 0%Q. split; lra.
  - inversion Hall as [|? ? [Hx1 Hx2] Hxs]; subst.
    cbn [fold_left]. destruct (IH (a + x)%Q Hxs) as [H1 H2].
    rewrite len_cons, inject_Z_plus.
    change (inject_Z 1) with 1%Q. split; lra.
Qed.

(** X15: on a non-empty duration list the printed average lies between the
    printed minimum and maximum. *)
Theorem X15_mean_between_min_and_max (l : list Q) :
  l <> [] ->
  exists mn avg mx,
    py_min l = Ret mn /\ mean l = Ret avg /\ py_max l = Ret mx /\
    (mn <= avg)%Q /\ (avg <= mx)%Q.
Proof.
  intros Hne. pose proof (nonempty_len l Hne) as Hlen.
  destruct (py_min_spec l Hne) as (mn & Hmn & _ & Hlo).
  destruct (py_max_spec l Hne) as (mx & Hmx & _ & Hhi).
  exists mn, (py_sum l / inject_Z (len l))%Q, mx.
  split; [exact Hmn|]. split; [now apply mean_nonempty|]. split; [exact Hmx|].
  assert (Hall : Forall (fun y => (mn <= y /\ y <= mx)%Q) l).
  { rewrite Forall_forall in *. intros y Hy. split; [now apply Hlo | now apply Hhi]. }
  destruct (fold_sum_bounds mn mx l 0%Q Hall) as [H1 H2]. fold (py_sum l) in H1, H2.
  assert (Hn : (0 < inject_Z (len l))%Q) by (unfold Qlt; simpl; lia).
  split.
  - apply Qle_shift_div_l; [exact Hn|]. lra.
  - apply Qle_shift_div_r; [exact Hn|]. lra.
Qed.

Lemma X15_mean_between_min_and_max_witness :
  results seven_of_ten <> [] /\
  exists mn avg mx,
    py_min (results seven_of_ten) = Ret mn /\ mean (results seven_of_ten) = Ret avg /\
    py_max (results seven_of_ten) = Ret mx /\ (mn <= avg)%Q /\ (avg <= mx)%Q.
Proof.
  assert (Hne : results seven_of_ten <> []) by discriminate.
  split; [exact Hne|].
  exact (X15_mean_between_min_and_max (results seven_of_ten) Hne).
Defined.

(** ** Construction *)





(** ** Header lines *)

Lemma split_colon_without s : has_colon s = false -> split_colon s = [s].
Proof.
  induction s as [|c s IH]; [reflexivity|]. cbn [has_colon split_colon].
  intros H. apply orb_false_elim in H as [Hc Hs].
  rewrite Hc, (IH Hs). reflexivity.
Qed.

Lemma split_colon_at_first k v :
  has_colon k = false -> split_colon (k ++ String ":" v) = [k; v].
Proof.
  induction k as [|c k IH]; [reflexivity|]. cbn [has_colon].
  intros H. apply orb_false_elim in H as [Hc Hk].
  cbn [append split_colon]. rewrite Hc, (IH Hk). reflexivity.
Qed.

Lemma has_colon_split s :
  has_colon s = true ->
  exists k v, s = (k ++ String ":" v)%string /\ has_colon k = false.
Proof.
  induction s as [|c s IH]; [discriminate|]. cbn [has_colon].
  destruct (c =? ":")%char eqn:Ec.
  - intros _. apply Ascii.eqb_eq in Ec. subst c.
    exists EmptyString, s. split; reflexivity.
  - cbn [orb]. intros H. destruct (IH H) as (k & v & -> & Hk).
    exists (String c k), v. split; [reflexivity|]. cbn [has_colon]. now rewrite Ec, Hk.
Qed.

Lemma lstrip_clean s : starts_with_space (lstrip s) = false.
Proof.
  induction s as [|c s IH]; [reflexivity|]. cbn [lstrip].
  destruct (is_space c) eqn:E; [exact IH | cbn; exact E].
Qed.


Lemma rstrip_clean s : ends_with_space (rstrip s) = false.
Proof.
  induction s as [|c s IH]; [reflexivity|]. cbn [rstrip].
  destruct (rstrip s) as [|d r] eqn:E.
  - destruct (is_space c) eqn:Ec; [reflexivity | cbn; exact Ec].
  - cbn [ends_with_space] in *. exact IH.
Qed.


Lemma rstrip_keeps_start s :
  starts_with_space s = false -> starts_with_space (rstrip s) = false.
Proof.
  destruct s as [|c s]; [reflexivity|]. cbn [starts_with_space rstrip]. intros Hc.
  destruct (rstrip s); [rewrite Hc|]; cbn; exact Hc.
Qed.

Lemma strip_clean s :
  starts_with_space (strip s) = false /\ ends_with_space (strip s) = false.
Proof.
  unfold strip. split; [apply rstrip_keeps_start, lstrip_clean | apply rstrip_clean].
Qed.


Lemma process_headers_app hs1 hs2 d :
  process_headers (hs1 ++ hs2) d =
  (fst (process_headers hs2 (fst (process_headers hs1 d))),
   snd (process_headers hs1 d) ++ snd (process_headers hs2 (fst (process_headers hs1 d)))).
Proof.
  revert d. induction hs1 as [|h hs1 IH]; intros d.
  - cbn. now destruct (process_headers hs2 d).
  - cbn [app process_headers].
    destruct (split_colon h) as [|k [|v [|w l]]].
    + rewrite IH. destruct (process_headers hs1 d). reflexivity.
    + rewrite IH. destruct (process_headers hs1 d). reflexivity.
    + apply IH.
    + rewrite IH. destruct (process_headers hs1 d). reflexivity.
Qed.

Lemma process_headers_good h rest d k v :
  split_colon h = [k; v] ->
  process_headers (h :: rest) d = process_headers rest (dict_set (strip k) (strip v) d).
Proof. intros H. cbn [process_headers]. now rewrite H. Qed.

Lemma process_headers_bad h rest d :
  has_colon h = false ->
  process_headers (h :: rest) d =
  (fst (process_headers rest d), LInvalidHeader h :: snd (process_headers rest d)).
Proof.
  intros H. cbn [process_headers]. rewrite (split_colon_without h H).
  now destruct (process_headers rest d).
Qed.



Lemma dict_get_set_same k v d : dict_get k (dict_set k v d) = Some v.
Proof.
  induction d as [|[k' v'] d IH]; cbn [dict_set dict_get].
  - now rewrite String.eqb_refl.
  - destruct (k' =? k)%string eqn:E; cbn [dict_get].
    + now rewrite String.eqb_refl.
    + now rewrite E.
Qed.

Lemma dict_get_set_other k k' v d :
  k' <> k -> dict_get k' (dict_set k v d) = dict_get k' d.
Proof.
  intros Hne. induction d as [|[k0 v0] d IH]; cbn [dict_set dict_get].
  - destruct (k =? k')%string eqn:E; [|reflexivity].
    apply String.eqb_eq in E. congruence.
  - destruct (k0 =? k)%string eqn:E; cbn [dict_get].
    + apply String.eqb_eq in E. subst k0.
      destruct (k =? k')%string eqn:E'; [|reflexivity].
      apply String.eqb_eq in E'. congruence.
    + now rewrite IH.
Qed.

Lemma dict_set_In k v d kv :
  In kv (dict_set k v d) -> kv = (k, v) \/ In kv d.
Proof.
  induction d as [|[k' v'] d IH]; cbn [dict_set].
  - intros [<-|[]]. now left.
  - destruct (k' =? k)%string.
    + intros [<-|H]; [now left | right; now right].
    + intros [<-|H]; [right; now left|].
      destruct (IH H) as [->|H']; [now left | right; now right].
Qed.

Lemma dict_set_keys k v d :
  In k (map fst d) /\ map fst (dict_set k v d) = map fst d \/
  ~ In k (map fst d) /\ map fst (dict_set k v d) = map fst d ++ [k].
Proof.
  induction d as [|[k' v'] d IH]; cbn [dict_set map fst].
  - right. split; [intros [] | reflexivity].
  - destruct (k' =? k)%string eqn:E.
    + apply String.eqb_eq in E. subst k'. left. split; [now left | reflexivity].
    + apply String.eqb_neq in E. cbn [map fst].
      destruct IH as [[Hin Heq]|[Hnin Heq]].
      * left. split; [now right | now rewrite Heq].
      * right. split; [intros [H|H]; [congruence | contradiction] | now rewrite Heq].
Qed.

Lemma dict_set_NoDup k v d : NoDup (map fst d) -> NoDup (map fst (dict_set k v d)).
Proof.
  intros Hnd. destruct (dict_set_keys k v d) as [[_ ->]|[Hnin ->]]; [exact Hnd|].
  apply NoDup_app; [exact Hnd | repeat constructor; intros [] |].
  intros a Ha [<-|[]]. contradiction.
Qed.

Lemma process_headers_keeps (P : dict -> Prop) :
  (forall k v d, P d -> P (dict_set (strip k) (strip v) d)) ->
  forall hs d, P d -> P (fst (process_headers hs d)).
Proof.
  intros Hset. induction hs as [|h hs IH]; intros d Hd; [exact Hd|].
  cbn [process_headers].
  destruct (split_colon h) as [|k [|v [|w l]]];
    try (specialize (IH d Hd); destruct (process_headers hs d); exact IH).
  apply IH, Hset, Hd.
Qed.

(** X18: the header mapping [main] builds has each key once, and no key and
    no value in it begins or ends with whitespace. *)
Theorem X18_headers_are_unique_and_stripped hs :
  NoDup (map fst (fst (process_headers hs []))) /\
  Forall (fun kv => trimmed (fst kv) /\ trimmed (snd kv)) (fst (process_headers hs [])).
Proof.
  split.
  - apply (process_headers_keeps (fun d => NoDup (map fst d))); [|constructor].
    intros k v d. apply dict_set_NoDup.
  - apply (process_headers_keeps
             (Forall (fun kv => trimmed (fst kv) /\ trimmed (snd kv)))); [|constructor].
    intros k v d Hd. apply Forall_forall. intros kv Hin.
    apply dict_set_In in Hin as [->|Hin].
    + split; apply strip_clean.
    + rewrite Forall_forall in Hd. now apply Hd.
Qed.

Lemma split_colon_with h :
  has_colon h = true -> exists k v, split_colon h = [k; v].
Proof.
  intros H. destruct (has_colon_split h H) as (k & v & -> & Hk).
  exists k, v. now apply split_colon_at_first.
Qed.

(** X19: a header line without a colon is reported and skipped.  The
    diagnostics are exactly those lines, in order, and the mapping is the
    one the remaining lines alone would give. *)
Theorem X19_malformed_headers_are_dropped hs d :
  snd (process_headers hs d)
    = map LInvalidHeader (filter (fun h => negb (has_colon h)) hs) /\
  fst (process_headers hs d) = fst (process_headers (filter has_colon hs) d).
Proof.
  revert d. induction hs as [|h hs IH]; intros d; [split; reflexivity|].
  cbn [filter]. destruct (has_colon h) eqn:Hc; cbn [negb].
  - destruct (split_colon_with h Hc) as (k & v & Hs).
    rewrite !(process_headers_good h _ d k v Hs). apply IH.
  - rewrite (process_headers_bad h hs d Hc). cbn [fst snd map].
    destruct (IH d) as [-> ->]. split; reflexivity.
Qed.

(** X20: when a header is given more than once, the last line wins: after a
    well-formed line the mapping holds that line's stripped value under its
    stripped key. *)
Theorem X20_last_header_wins hs k v d :
  has_colon k = false ->
  dict_get (strip k)
           (fst (process_headers (hs ++ [(k ++ String ":" v)%string]) d))
  = Some (strip v).
Proof.
  intros Hk. rewrite process_headers_app. cbn [fst].
  rewrite (process_headers_good _ [] _ k v (split_colon_at_first k v Hk)).
  cbn [process_headers fst]. apply dict_get_set_same.
Qed.

Lemma X20_last_header_wins_witness :
  has_colon "Accept" = false /\
  dict_get "Accept"
    (fst (process_headers ["Accept: text/html"%string; "Accept: application/json"%string] []))
  = Some "application/json"%string.
Proof.
  assert (H : has_colon "Accept" = false) by reflexivity.
  split; [exact H|].
  exact (X20_last_header_wins ["Accept: text/html"%string] "Accept" " application/json" [] H).
Defined.

(** ** [main] *)


(** ** The order of completion does not change the figures *)






